(** * Visitor management system: the visitor lifecycle of [server.js]

    A shallow embedding of the request handlers of
    [RSB Visitor Management System/server.js] over a model of the single
    SQLite table [visitors], followed by the properties of the lifecycle
    (registration, approval, release, security checkout, listing, statistics).

    Modelling decisions, once and for all:
    - the table is a finite map from the [INTEGER PRIMARY KEY] rowid to the
      remaining columns; [sqlite_sequence] is the AUTOINCREMENT counter;
    - the SQLite [BOOLEAN] columns hold the integers the statements write
      (0 and 1), so they are [Z] here, and the SQL tests [= 1] and [= 0] are
      integer tests;
    - [DATETIME] columns hold text; [ORDER BY in_time] is the bytewise text
      order of SQLite's default collation;
    - every request handler runs to completion before the next request: the
      clock, the QR renderer and the SMTP transport are inputs of the request;
    - the route parameter [:id] is taken as the integer SQLite compares the
      rowid with. *)

From Stdlib Require Import Ascii.
From stdpp Require Import gmap strings list sorting pretty.

Local Open Scope string_scope.
Local Open Scope Z_scope.

(** ** SQLite's GLOB operator, as far as the schema uses it *)

Module Glob.

(** One element of a GLOB pattern: [*], a range [[lo-hi]], a literal.
    Texts are byte strings; the pattern of the schema is ASCII. *)
Inductive item : Type :=
| Star
| Range (lo hi : ascii)
| Lit (c : ascii).

Definition in_range (lo hi c : ascii) : bool :=
  (Ascii.leb lo c && Ascii.leb c hi)%bool.

(** GLOB matches the whole string against the whole pattern. *)
Fixpoint matches (p : list item) (s : string) {struct p} : bool :=
  match p with
  | [] => match s with EmptyString => true | String _ _ => false end
  | Star :: p' =>
      (fix star (s : string) : bool :=
         (matches p' s ||
          match s with
          | EmptyString => false
          | String _ s' => star s'
          end)%bool) s
  | Range lo hi :: p' =>
      match s with
      | EmptyString => false
      | String c s' => (in_range lo hi c && matches p' s')%bool
      end
  | Lit a :: p' =>
      match s with
      | EmptyString => false
      | String c s' => (Ascii.eqb a c && matches p' s')%bool
      end
  end.

End Glob.

(** ** The [visitors] table *)

(** A row of [visitors] without its rowid [id] (the key of the table).
    Nullable columns are options; [None] is SQL NULL. *)
Record visitor : Type := mkVisitor {
  full_name : string;
  contact_number : string;
  department_visiting : string;
  person_to_visit : string;
  in_time : string;
  out_time : option string;
  security_confirmed : Z;
  security_out_time : option string;
  photo_path : option string;
  email_sent : Z;
  approved : Z;
  qr_code_path : option string
}.

(** [SET column = value] for the columns the server updates. *)
Definition set_out_time (t : string) (r : visitor) : visitor :=
  mkVisitor (full_name r) (contact_number r) (department_visiting r)
    (person_to_visit r) (in_time r) (Some t) (security_confirmed r)
    (security_out_time r) (photo_path r) (email_sent r) (approved r)
    (qr_code_path r).

Definition set_security (t : string) (r : visitor) : visitor :=
  mkVisitor (full_name r) (contact_number r) (department_visiting r)
    (person_to_visit r) (in_time r) (out_time r) 1
    (Some t) (photo_path r) (email_sent r) (approved r)
    (qr_code_path r).

Definition set_approved (r : visitor) : visitor :=
  mkVisitor (full_name r) (contact_number r) (department_visiting r)
    (person_to_visit r) (in_time r) (out_time r) (security_confirmed r)
    (security_out_time r) (photo_path r) (email_sent r) 1
    (qr_code_path r).

Definition set_email_sent (r : visitor) : visitor :=
  mkVisitor (full_name r) (contact_number r) (department_visiting r)
    (person_to_visit r) (in_time r) (out_time r) (security_confirmed r)
    (security_out_time r) (photo_path r) 1 (approved r)
    (qr_code_path r).

Definition set_qr_code_path (p : string) (r : visitor) : visitor :=
  mkVisitor (full_name r) (contact_number r) (department_visiting r)
    (person_to_visit r) (in_time r) (out_time r) (security_confirmed r)
    (security_out_time r) (photo_path r) (email_sent r) (approved r)
    (Some p).

(** The database file: the table and the AUTOINCREMENT counter that SQLite
    keeps for it in [sqlite_sequence]. *)
Record database : Type := mkDatabase {
  visitors : gmap Z visitor;
  sqlite_sequence : Z
}.

Inductive sql_error : Type :=
| SQLITE_CONSTRAINT
| SQLITE_FULL.

Module Sql.

(** [CONSTRAINT chk_contact CHECK (contact_number GLOB '[0-9]*')] *)
Definition chk_contact_pattern : list Glob.item :=
  [Glob.Range "0" "9"; Glob.Star].

Definition chk_contact (contact : string) : bool :=
  Glob.matches chk_contact_pattern contact.

(** Largest rowid in the table, 0 when it is empty. *)
Definition max_rowid (m : gmap Z visitor) : Z :=
  foldr Z.max 0 (map_to_list m).*1.

Definition largest_rowid : Z := 9223372036854775807.

(** AUTOINCREMENT: one more than the largest rowid the table ever held. *)
Definition next_rowid (d : database) : Z :=
  Z.max (sqlite_sequence d) (max_rowid (visitors d)) + 1.

(** [INSERT INTO visitors (full_name, contact_number, department_visiting,
    person_to_visit, photo_path) VALUES (?, ?, ?, ?, ?)]: every other
    column takes its DEFAULT; [now] is CURRENT_TIMESTAMP.  Returns the new
    database and [lastID]. *)
Definition insert_visitor (fn cn dv pv : string) (photo : option string)
    (now : string) (d : database) : sql_error + database * Z :=
  if negb (chk_contact cn) then inl SQLITE_CONSTRAINT
  else if largest_rowid <=? Z.max (sqlite_sequence d) (max_rowid (visitors d))
  then inl SQLITE_FULL
  else
    let id := next_rowid d in
    let row := mkVisitor fn cn dv pv now None 0 None photo 0 0 None in
    inr (mkDatabase (<[id := row]> (visitors d)) id, id).

(** [UPDATE visitors SET ... WHERE id = ?]: the new database and
    [this.changes], the number of rows the WHERE clause selected.  None of
    the columns the server updates is under a constraint, so the statement
    does not fail and the [err] branch of its callback is not taken. *)
Definition update_where_id (set : visitor → visitor) (id : Z)
    (d : database) : database * Z :=
  (mkDatabase (alter set id (visitors d)) (sqlite_sequence d),
   match visitors d !! id with Some _ => 1 | None => 0 end).

(** [SELECT * FROM visitors WHERE id = ?] through [db.get]: the first row
    or [undefined]. *)
Definition select_by_id (id : Z) (d : database) : option visitor :=
  visitors d !! id.

(** [out_time IS NULL] and [out_time IS NOT NULL]. *)
Definition is_null {A} (o : option A) : bool :=
  match o with None => true | Some _ => false end.

(** [SUM(expr)] over the rows: NULL on no rows. *)
Definition sum (xs : list Z) : option Z :=
  match xs with
  | [] => None
  | _ => Some (foldr Z.add 0 xs)
  end.

(** [COUNT( * )] *)
Definition count {A} (xs : list A) : Z := Z.of_nat (length xs).

(** [CASE WHEN c THEN 1 ELSE 0 END] *)
Definition case_when (c : bool) : Z := if c then 1 else 0.

(** [ORDER BY in_time DESC] on result rows. *)
Definition in_time_desc (a b : Z * visitor) : Prop :=
  String.le (in_time b.2) (in_time a.2).

Global Instance in_time_desc_dec a b : Decision (in_time_desc a b).
Proof. unfold in_time_desc. apply _. Defined.

Definition order_by_in_time_desc (rows : list (Z * visitor))
  : list (Z * visitor) :=
  merge_sort in_time_desc rows.

End Sql.

(** ** The server process *)

(** The two addressees of [sendEmails]: [process.env.HR_EMAIL] and the
    address derived from [person_to_visit]. *)
Inductive recipient : Type :=
| HR_EMAIL
| HostAddress (person : string).

(** One call of [transporter.sendMail] and whether it resolved. *)
Record mail : Type := mkMail {
  mail_to : recipient;
  mail_visitor : Z;
  mail_delivered : bool
}.

(** What the handlers read and write: the database, the console, the calls
    made to the SMTP transport, and the number of frames
    [notifyDashboardUpdate] has pushed to the dashboards. *)
Record world : Type := mkWorld {
  db : database;
  console : list string;
  outbox : list mail;
  broadcasts : nat
}.

Definition with_db (d : database) (w : world) : world :=
  mkWorld d (console w) (outbox w) (broadcasts w).

Definition console_write (line : string) (w : world) : world :=
  mkWorld (db w) (console w ++ [line]) (outbox w) (broadcasts w).

Definition transporter_sendMail (m : mail) (w : world) : world :=
  mkWorld (db w) (console w) (outbox w ++ [m]) (broadcasts w).

Definition notifyDashboardUpdate (w : world) : world :=
  mkWorld (db w) (console w) (outbox w) (S (broadcasts w)).

(** [db.run] of an UPDATE whose callback is absent or ignores the outcome. *)
Definition db_run_update (set : visitor → visitor) (id : Z) (w : world)
  : world :=
  with_db (Sql.update_where_id set id (db w)).1 w.

(** [initializeDatabase]: CREATE TABLE IF NOT EXISTS keeps the table of an
    existing database file and creates an empty one otherwise. *)
Definition initializeDatabase (file : option database) : database :=
  match file with
  | Some d => d
  | None => mkDatabase ∅ 0
  end.

(** The server started on a new database file. *)
Definition initial_world : world :=
  mkWorld (initializeDatabase None) [] [] 0.

(** *** Responses *)

Inductive payload : Type :=
| JsonError (error : string)
| JsonRegistered (id : Z) (message : string)
| Text (text : string)
| ApprovedPage (visitorId : Z) (v : visitor)
| JsonStats (total active secured security_pending : Z)
| JsonVisitors (rows : list (Z * visitor)).

Record response : Type := mkResponse {
  status : Z;
  body : payload
}.

(** *** What a registration request carries and meets *)

(** [req.body] and [req.file] of [POST /api/visitors]: a form field is a
    string or absent, [photo] is the path multer stored the upload at. *)
Record form : Type := mkForm {
  f_full_name : option string;
  f_contact_number : option string;
  f_department_visiting : option string;
  f_person_to_visit : option string;
  f_photo : option string
}.

(** The outside world during one registration: the database clock, whether
    [QRCode.toFile] resolves, whether each [sendMail] resolves. *)
Record services : Type := mkServices {
  current_timestamp : string;
  qr_to_file_ok : bool;
  send_hr_ok : bool;
  send_host_ok : bool
}.

(** JavaScript truthiness of a form field: [undefined] and [''] are falsy. *)
Definition truthy (field : option string) : bool :=
  match field with
  | Some (String _ _) => true
  | Some EmptyString => false
  | None => false
  end.

(** [x || 0] on a number or NULL. *)
Definition or_zero (x : option Z) : Z :=
  match x with
  | Some n => if n =? 0 then 0 else n
  | None => 0
  end.

(** [generateQRCode]: the path of the image, or [null] after logging. *)
Definition generateQRCode (sv : services) (visitorId : Z) (w : world)
  : world * option string :=
  let qrPath := "uploads/qr-" +:+ pretty visitorId +:+ ".png" in
  if qr_to_file_ok sv then (w, Some qrPath)
  else (console_write "QR Code generation failed:" w, None).

(** [sendEmails]: the [try] block stops at the first [sendMail] that
    rejects; the [catch] logs and returns. *)
Definition sendEmails (sv : services) (visitorId : Z) (person : string)
    (w : world) : world :=
  let w := transporter_sendMail (mkMail HR_EMAIL visitorId (send_hr_ok sv)) w in
  if send_hr_ok sv then
    let w := console_write "Email sent to HR:" w in
    let w :=
      transporter_sendMail
        (mkMail (HostAddress person) visitorId (send_host_ok sv)) w in
    if send_host_ok sv then
      let w := console_write "Email sent to host:" w in
      db_run_update set_email_sent visitorId w
    else console_write "Email sending failed:" w
  else console_write "Email sending failed:" w.

(** *** The handlers *)

(** [POST /api/visitors].  The outer [try] of the handler guards the
    destructuring of [req.body], which multer always provides. *)
Definition post_visitors (f : form) (sv : services) (w : world)
  : world * response :=
  if negb (truthy (f_full_name f)) || negb (truthy (f_contact_number f))
     || negb (truthy (f_department_visiting f))
     || negb (truthy (f_person_to_visit f))
  then (w, mkResponse 400 (JsonError "All fields are required"))
  else
    let full_name := default "" (f_full_name f) in
    let contact_number := default "" (f_contact_number f) in
    let department_visiting := default "" (f_department_visiting f) in
    let person_to_visit := default "" (f_person_to_visit f) in
    let photoPath := f_photo f in
    match Sql.insert_visitor full_name contact_number department_visiting
            person_to_visit photoPath (current_timestamp sv) (db w) with
    | inl _ =>
        (console_write "Database error:" w,
         mkResponse 500 (JsonError "Failed to register visitor"))
    | inr (d, visitorId) =>
        let w := with_db d w in
        let '(w, qrPath) := generateQRCode sv visitorId w in
        let w :=
          match qrPath with
          | Some p => db_run_update (set_qr_code_path p) visitorId w
          | None => w
          end in
        let w := sendEmails sv visitorId person_to_visit w in
        (w, mkResponse 200
              (JsonRegistered visitorId "Visitor registered successfully"))
    end.

(** [GET /api/visitors/:id/approve] *)
Definition get_approve (visitorId : Z) (w : world) : world * response :=
  let '(d, changes) := Sql.update_where_id set_approved visitorId (db w) in
  let w := with_db d w in
  if changes =? 0 then (w, mkResponse 404 (Text "Visitor not found"))
  else
    match Sql.select_by_id visitorId (db w) with
    | None => (w, mkResponse 404 (Text "Visitor data not found"))
    | Some v => (w, mkResponse 200 (ApprovedPage visitorId v))
    end.

(** [POST /api/visitors/:id/release] *)
Definition post_release (visitorId : Z) (releaseTime : string) (w : world)
  : world * response :=
  let '(d, _) :=
    Sql.update_where_id (set_out_time releaseTime) visitorId (db w) in
  let w := with_db d w in
  let w := notifyDashboardUpdate w in
  (w, mkResponse 200 (Text "OK")).

(** [POST /api/visitors/:id/security-checkout] *)
Definition post_security_checkout (visitorId : Z) (checkoutTime : string)
    (w : world) : world * response :=
  let '(d, _) :=
    Sql.update_where_id (set_security checkoutTime) visitorId (db w) in
  let w := with_db d w in
  let w := notifyDashboardUpdate w in
  (w, mkResponse 200 (Text "OK")).

(** The three SUM(CASE ...) conditions of the statistics query. *)
Definition is_active (r : visitor) : bool :=
  Sql.is_null (out_time r).

Definition is_secured (r : visitor) : bool :=
  negb (Sql.is_null (out_time r)) && (security_confirmed r =? 1).

Definition is_security_pending (r : visitor) : bool :=
  negb (Sql.is_null (out_time r)) && (security_confirmed r =? 0).

(** [GET /api/visitors/stats] *)
Definition get_stats (w : world) : world * response :=
  let rows := (map_to_list (visitors (db w))).*2 in
  let total := Some (Sql.count rows) in
  let active := Sql.sum ((λ r, Sql.case_when (is_active r)) <$> rows) in
  let secured := Sql.sum ((λ r, Sql.case_when (is_secured r)) <$> rows) in
  let security_pending :=
    Sql.sum ((λ r, Sql.case_when (is_security_pending r)) <$> rows) in
  (w, mkResponse 200
        (JsonStats (or_zero total) (or_zero active) (or_zero secured)
           (or_zero security_pending))).

(** The WHERE clause [GET /api/visitors] builds from [req.query.status]. *)
Definition where_status (status : option string) (r : visitor) : bool :=
  if decide (status = Some "active") then is_active r
  else if decide (status = Some "released") then is_secured r
  else if decide (status = Some "security-pending") then is_security_pending r
  else true.

Definition select_visitors (status : option string) (d : database)
  : list (Z * visitor) :=
  Sql.order_by_in_time_desc
    (filter (λ row, where_status status row.2 = true)
       (map_to_list (visitors d))).

(** [GET /api/visitors] *)
Definition get_visitors (status : option string) (w : world)
  : world * response :=
  (w, mkResponse 200 (JsonVisitors (select_visitors status (db w)))).

(** *** Requests and runs *)

(** The six routes of the visitor lifecycle.  The other routes of the
    server (mail test, export, event stream, static files) come with
    [server_event] further down. *)

Inductive request : Type :=
| Register (f : form) (sv : services)
| Approve (id : Z)
| Release (id : Z) (now : string)
| ConfirmSecurity (id : Z) (now : string)
| Stats
| List (status : option string).

Definition handle (rq : request) (w : world) : world * response :=
  match rq with
  | Register f sv => post_visitors f sv w
  | Approve id => get_approve id w
  | Release id now => post_release id now w
  | ConfirmSecurity id now => post_security_checkout id now w
  | Stats => get_stats w
  | List st => get_visitors st w
  end.

(** The world after serving the requests in order. *)
Fixpoint run (rqs : list request) (w : world) : world :=
  match rqs with
  | [] => w
  | rq :: rqs => run rqs (handle rq w).1
  end.

(** The row of visitor [id] in a world. *)
Definition record_of (id : Z) (w : world) : option visitor :=
  visitors (db w) !! id.

(** ** Vocabulary of the properties *)

(** A decimal digit. *)
Definition is_digit (c : ascii) : bool := Glob.in_range "0" "9" c.

(** A text of decimal digits only. *)
Fixpoint all_digits (s : string) : bool :=
  match s with
  | EmptyString => true
  | String c s' => (is_digit c && all_digits s')%bool
  end.

(** The path [generateQRCode] writes the image of visitor [id] to. *)
Definition qr_path (id : Z) : string :=
  "uploads/qr-" +:+ pretty id +:+ ".png".

(** The mails one call of [sendEmails] hands to the transport. *)
Definition mails_of (sv : services) (id : Z) (person : string) : list mail :=
  mkMail HR_EMAIL id (send_hr_ok sv) ::
  if send_hr_ok sv then [mkMail (HostAddress person) id (send_host_ok sv)]
  else [].

(** The row a successful registration leaves in the table. *)
Definition registered_row (fn cn dv pv : string) (photo : option string)
    (sv : services) (id : Z) : visitor :=
  let row := mkVisitor fn cn dv pv (current_timestamp sv) None 0 None
               photo 0 0 None in
  let row := if qr_to_file_ok sv then set_qr_code_path (qr_path id) row
             else row in
  if send_hr_ok sv && send_host_ok sv then set_email_sent row else row.

(** What one request does to a row that is already in the table. *)
Definition touch (rq : request) (id : Z) (r : visitor) : visitor :=
  match rq with
  | Approve i => if decide (i = id) then set_approved r else r
  | Release i now => if decide (i = id) then set_out_time now r else r
  | ConfirmSecurity i now =>
      if decide (i = id) then set_security now r else r
  | Register _ _ | Stats | List _ => r
  end.

(** The white space [String.prototype.trim] removes, among the ASCII
    characters: tab, line feed, vertical tab, form feed, carriage return
    and space.  The browser form ([handleFormSubmit]) trims three of the
    fields before it posts them; the server does not. *)
Definition is_space (c : ascii) : bool :=
  let n := N_of_ascii c in
  ((9 <=? n)%N && (n <=? 13)%N || (n =? 32)%N)%bool.

Fixpoint trim_start (s : string) : string :=
  match s with
  | EmptyString => EmptyString
  | String c s' => if is_space c then trim_start s' else s
  end.

Definition trim (s : string) : string :=
  String.rev (trim_start (String.rev (trim_start s))).

(** A form field that is absent or the empty string. *)
Definition missing_or_empty (field : option string) : Prop :=
  field = None ∨ field = Some "".

(** Every row has [security_confirmed] at 0 or 1. *)
Definition flags_boolean (w : world) : Prop :=
  ∀ id r, record_of id w = Some r →
          security_confirmed r = 0 ∨ security_confirmed r = 1.

(** A row flagged as notified has both of its
    mails, delivered, in the transport's log. *)
Definition notified_means_both_delivered (w : world) : Prop :=
  ∀ id r, record_of id w = Some r →
    (email_sent r = 0 ∨ email_sent r = 1) ∧
    (email_sent r = 1 →
     mkMail HR_EMAIL id true ∈ outbox w ∧
     mkMail (HostAddress (person_to_visit r)) id true ∈ outbox w).

(** The number of rows that satisfy a condition. *)
Definition count_where (P : visitor → Prop) `{∀ r, Decision (P r)}
    (w : world) : Z :=
  Z.of_nat (length (filter P (map_to_list (visitors (db w))).*2)).

(** ** Links and addresses *)

(** [process.env.BASE_URL || 'http://localhost:3000'] *)
Definition base_url (BASE_URL : option string) : string :=
  match BASE_URL with
  | Some (String c s) => String c s
  | Some EmptyString => "http://localhost:3000"
  | None => "http://localhost:3000"
  end.

(** The address [generateQRCode] encodes in the image. *)
Definition qr_url (BASE_URL : option string) (visitorId : Z) : string :=
  base_url BASE_URL +:+ "/api/visitors/" +:+ pretty visitorId +:+ "/approve".

(** [approvalUrl] of [sendEmails], the link of the APPROVE button.  The
    function computes [baseUrl] on the line before and does not use it. *)
Definition approvalUrl (BASE_URL : option string) (visitorId : Z) : string :=
  "http://localhost:3000/api/visitors/" +:+ pretty visitorId +:+ "/approve".

(** Texts of ASCII characters only.  On these, the byte-wise functions below
    are [String.prototype.toLowerCase] and the class [\s] of JavaScript. *)
Fixpoint ascii_text (s : string) : bool :=
  match s with
  | EmptyString => true
  | String c s' => ((N_of_ascii c <? 128)%N && ascii_text s')%bool
  end.

Definition is_upper (c : ascii) : bool := Glob.in_range "A" "Z" c.

Definition to_lower (c : ascii) : ascii :=
  if is_upper c then ascii_of_N (N_of_ascii c + 32) else c.

Fixpoint toLowerCase (s : string) : string :=
  match s with
  | EmptyString => EmptyString
  | String c s' => String (to_lower c) (toLowerCase s')
  end.

(** [replace(/\s+/g, '.')]: every maximal run of white space becomes one
    dot.  [in_run] tells that the character before was white space. *)
Fixpoint replace_spaces (in_run : bool) (s : string) : string :=
  match s with
  | EmptyString => EmptyString
  | String c s' =>
      if is_space c then
        if in_run then replace_spaces true s'
        else String "." (replace_spaces true s')
      else String c (replace_spaces false s')
  end.

(** The local part of the host's address in [sendEmails]. *)
Definition host_local_part (person : string) : string :=
  replace_spaces false (toLowerCase person).

Definition host_address (person : string) : string :=
  host_local_part person +:+ "@example.com".

Fixpoint string_forall (p : ascii → bool) (s : string) : bool :=
  match s with
  | EmptyString => true
  | String c s' => (p c && string_forall p s')%bool
  end.

(** ** The spreadsheet export *)

(** The three dates [GET /api/visitors/export] computes from the clock, as
    [toISOString] prints them. *)
Record period_starts : Type := mkPeriodStarts {
  startOfDay : string;
  startOfWeek : string;
  startOfMonth : string
}.

(** The parameter of [WHERE in_time >= ?], if the period asks for one. *)
Definition export_params (period : option string) (ps : period_starts)
  : option string :=
  if decide (period = Some "day") then Some (startOfDay ps)
  else if decide (period = Some "week") then Some (startOfWeek ps)
  else if decide (period = Some "month") then Some (startOfMonth ps)
  else None.

(** [in_time >= ?], a comparison of texts. *)
Definition export_where (param : option string) (r : visitor) : bool :=
  match param with
  | Some start => String.leb start (in_time r)
  | None => true
  end.

(** The rows [db.all] resolves with. *)
Definition export_select (period : option string) (ps : period_starts)
    (d : database) : list (Z * visitor) :=
  Sql.order_by_in_time_desc
    (filter (λ row, export_where (export_params period ps) row.2 = true)
       (map_to_list (visitors d))).

(** The [status] column: [out_time] and [security_confirmed] are tested for
    JavaScript truthiness. *)
Definition export_status (r : visitor) : string :=
  if truthy (out_time r) then
    if security_confirmed r =? 0 then "Pending Checkout" else "Completed"
  else "Active".

(** The rows added to the worksheet. *)
Definition export_sheet (period : option string) (ps : period_starts)
    (d : database) : list (Z * visitor * string) :=
  (λ row, (row.1, row.2, export_status row.2)) <$> export_select period ps d.

(** [visitors_${period || 'all'}_${date}.xlsx] *)
Definition export_filename (period : option string) (date : string)
  : string :=
  "visitors_" +:+ (if truthy period then default "" period else "all")
    +:+ "_" +:+ date +:+ ".xlsx".

(** ** The browser form *)

(** The values of the inputs of the registration form and of the hidden
    photo field. *)
Record form_inputs : Type := mkFormInputs {
  in_full_name : string;
  in_contact_number : string;
  in_department_visiting : string;
  in_person_to_visit : string;
  in_photo_data : string
}.

(** [handleFormSubmit] and [submitVisitorData] of [script.js]: the multipart
    form posted to the server.  [upload] is the path multer stores the photo
    at, when there is one. *)
Definition handleFormSubmit (i : form_inputs) (upload : string) : form :=
  mkForm (Some (trim (in_full_name i)))
    (Some (trim (in_contact_number i)))
    (Some (in_department_visiting i))
    (Some (trim (in_person_to_visit i)))
    (if truthy (Some (in_photo_data i)) then Some upload else None).

(** ** The maintenance script *)

(** [DELETE FROM visitors] followed by [DELETE FROM sqlite_sequence WHERE
    name="visitors"].  The script closes the database in the callback of
    the first statement; [sequence_reset] tells whether the second one
    ran. *)
Definition delete_all_visitors (sequence_reset : bool) (d : database)
  : database :=
  mkDatabase ∅ (if sequence_reset then 0 else sqlite_sequence d).

(** ** More vocabulary *)

(** The requests whose handler calls [notifyDashboardUpdate]. *)
Definition notifies (rq : request) : bool :=
  match rq with
  | Release _ _ | ConfirmSecurity _ _ => true
  | Register _ _ | Approve _ | Stats | List _ => false
  end.

(** The answer of a registration that went through. *)
Definition registered_as (id : Z) : response :=
  mkResponse 200 (JsonRegistered id "Visitor registered successfully").


(** The rows of the table, and how many of them pass a test. *)
Definition table_rows (w : world) : list visitor :=
  (map_to_list (visitors (db w))).*2.

Definition tally (c : visitor → bool) (rows : list visitor) : Z :=
  Z.of_nat (length (filter (λ r, c r = true) rows)).

(** The counter is not negative and no rowid of the table is above it. *)
Definition sequence_covers_table (w : world) : Prop :=
  0 ≤ sqlite_sequence (db w) ∧
  ∀ id r, record_of id w = Some r → 1 ≤ id ≤ sqlite_sequence (db w).

(** The timestamp of the last release of [id] among the requests, if there
    is one. *)
Fixpoint last_release (id : Z) (rqs : list request) : option string :=
  match rqs with
  | [] => None
  | rq :: rqs' =>
      match last_release id rqs' with
      | Some now => Some now
      | None =>
          match rq with
          | Release i now => if decide (i = id) then Some now else None
          | Register _ _ | Approve _ | ConfirmSecurity _ _ | Stats | List _ =>
              None
          end
      end
  end.

(** ** Every route of the server *)

(** What reaches the server: a request of the visitor lifecycle, the mail
    test, an export, a dashboard opening or closing its event stream, a
    request for a static file. *)
Inductive server_event : Type :=
| Lifecycle (rq : request)
| TestEmail (delivered : bool)
| Export (period : option string) (ps : period_starts) (date : string)
| UpdatesOpen (client : nat)
| UpdatesClose (client : nat)
| StaticFile (path : string).

(** The whole process: the world of the lifecycle handlers, the calls
    [GET /test-email] made to the mail transport (each with whether it
    resolved; they go to [process.env.HR_EMAIL || 'test@example.com'] and
    name no visitor), and the set [dashboardClients]. *)
Record server : Type := mkServer {
  lifecycle : world;
  test_mails : list bool;
  dashboardClients : gset nat
}.

Inductive answer : Type :=
| Answer (rs : response)
| TestEmailPage (status : Z)
| Spreadsheet (filename : string) (sheet : list (Z * visitor * string))
| EventStream
| File (path : string).

Definition initial_server : server := mkServer initial_world [] ∅.

(** The handler of each route.  [GET /test-email] sends one mail and
    answers 200, or 500 after logging when [sendMail] rejects; the export
    and the static files read only; [GET /api/visitors/updates] adds the
    connection to [dashboardClients] and its [close] event removes it. *)
Definition serve (e : server_event) (s : server) : server * answer :=
  match e with
  | Lifecycle rq =>
      let '(w, rs) := handle rq (lifecycle s) in
      (mkServer w (test_mails s) (dashboardClients s), Answer rs)
  | TestEmail delivered =>
      if delivered then
        (mkServer (lifecycle s) (test_mails s ++ [true]) (dashboardClients s),
         TestEmailPage 200)
      else
        (mkServer (console_write "Email test failed:" (lifecycle s))
           (test_mails s ++ [false]) (dashboardClients s),
         TestEmailPage 500)
  | Export period ps date =>
      (s, Spreadsheet (export_filename period date)
            (export_sheet period ps (db (lifecycle s))))
  | UpdatesOpen client =>
      (mkServer (lifecycle s) (test_mails s) ({[client]} ∪ dashboardClients s),
       EventStream)
  | UpdatesClose client =>
      (mkServer (lifecycle s) (test_mails s) (dashboardClients s ∖ {[client]}),
       EventStream)
  | StaticFile path => (s, File path)
  end.

Fixpoint serve_all (es : list server_event) (s : server) : server :=
  match es with
  | [] => s
  | e :: es => serve_all es (serve e s).1
  end.

(** The lifecycle requests among the events, in order. *)
Definition lifecycle_requests (es : list server_event) : list request :=
  omap (λ e, match e with Lifecycle rq => Some rq | _ => None end) es.

(** The mail tests among the events. *)
Definition is_test_email (e : server_event) : bool :=
  match e with TestEmail _ => true | _ => false end.

(** Every mail in the log of the registration mails is about a visitor who
    is in the table, and addressed to HR or to the host of that row. *)
Definition mails_about_stored (w : world) : Prop :=
  ∀ m, m ∈ outbox w →
    ∃ r, record_of (mail_visitor m) w = Some r ∧
         (mail_to m = HR_EMAIL ∨
          mail_to m = HostAddress (person_to_visit r)).

(** ** Sample requests *)

Module Scenario.

Definition jane : form :=
  mkForm (Some "Jane Doe") (Some "5551234567") (Some "Engineering")
    (Some "John Smith") None.

(** A registration during which every outside service works. *)
Definition all_up : services :=
  mkServices "2025-01-01 10:00:00" true true true.

(** One during which neither the QR renderer nor the mail server does. *)
Definition all_down : services :=
  mkServices "2025-01-01 10:00:00" false false false.

Definition registered : world := run [Register jane all_up] initial_world.

Definition released : world :=
  run [Register jane all_up; Release 1 "2025-01-01T11:00:00.000Z"]
    initial_world.

End Scenario.

(** ** Facts about the SQL layer *)

Section sql_facts.

Implicit Types (m : gmap Z visitor) (d : database) (r : visitor) (id : Z).

Lemma foldr_max_ge (ks : list Z) (k : Z) :
  k ∈ ks → k ≤ foldr Z.max 0 ks.
Proof.
  induction ks as [|k' ks IH]; inversion 1; subst; simpl; [lia|].
  specialize (IH ltac:(assumption)). lia.
Qed.

Lemma max_rowid_ge m id r : m !! id = Some r → id ≤ Sql.max_rowid m.
Proof.
  intros Hl. apply foldr_max_ge.
  apply list_elem_of_fmap. exists (id, r). split; [done|].
  by apply elem_of_map_to_list.
Qed.

(** The rowid AUTOINCREMENT hands out is not in the table. *)
Lemma next_rowid_fresh d : visitors d !! Sql.next_rowid d = None.
Proof.
  destruct (visitors d !! Sql.next_rowid d) as [r|] eqn:E; [|done].
  apply max_rowid_ge in E. unfold Sql.next_rowid in E. lia.
Qed.

Lemma update_where_id_lookup set id d id' :
  visitors (Sql.update_where_id set id d).1 !! id' =
  if decide (id = id') then set <$> visitors d !! id'
  else visitors d !! id'.
Proof. simpl. rewrite lookup_alter. by case_decide; subst. Qed.

(** An UPDATE whose WHERE clause selects no row leaves the database as it
    is. *)
Lemma update_where_id_absent set id d :
  visitors d !! id = None → Sql.update_where_id set id d = (d, 0).
Proof.
  intros Hn. unfold Sql.update_where_id. rewrite Hn.
  rewrite alter_id by (intros x Hx; congruence). by destruct d.
Qed.

Lemma update_where_id_changes set id d r :
  visitors d !! id = Some r → (Sql.update_where_id set id d).2 = 1.
Proof. intros Hl. simpl. by rewrite Hl. Qed.

Lemma insert_visitor_inr fn cn dv pv photo now d d' id :
  Sql.insert_visitor fn cn dv pv photo now d = inr (d', id) →
  Sql.chk_contact cn = true ∧
  visitors d !! id = None ∧
  d' = mkDatabase
         (<[id := mkVisitor fn cn dv pv now None 0 None photo 0 0 None]>
            (visitors d)) id.
Proof.
  unfold Sql.insert_visitor.
  destruct (Sql.chk_contact cn); simpl; [|done].
  case_match; [done|]. intros [= <- <-].
  split_and!; [done|apply next_rowid_fresh|done].
Qed.

(** What [chk_contact] really accepts: any text that starts with a digit. *)
Lemma chk_contact_spec (cn : string) :
  Sql.chk_contact cn = true ↔
  ∃ c rest, cn = String c rest ∧ is_digit c = true.
Proof.
  unfold Sql.chk_contact, Sql.chk_contact_pattern. simpl.
  destruct cn as [|c rest]; simpl.
  - split; [done|]. by intros (? & ? & ? & ?).
  - assert (Hstar : ∀ s : string,
      (fix star (s : string) : bool :=
         (match s with EmptyString => true | String _ _ => false end ||
          match s with
          | EmptyString => false
          | String _ s' => star s'
          end)%bool) s = true).
    { induction s as [|a s IH]; [done|]. simpl. exact IH. }
    rewrite Hstar, andb_true_r. unfold is_digit. split.
    + intros H. by exists c, rest.
    + by intros (c' & rest' & [= <- <-] & H).
Qed.

Global Instance in_time_desc_trans : Transitive Sql.in_time_desc.
Proof.
  intros a b c Hab Hbc. unfold Sql.in_time_desc in *. by etrans.
Qed.

Global Instance in_time_desc_total : Total Sql.in_time_desc.
Proof. intros a b. unfold Sql.in_time_desc. apply total, _. Qed.

End sql_facts.

(** ** Facts about the handlers *)

Section handler_facts.

Implicit Types (w : world) (r : visitor) (id : Z) (sv : services) (f : form).

Lemma sendEmails_visitors sv id person w :
  visitors (db (sendEmails sv id person w)) =
  if send_hr_ok sv && send_host_ok sv
  then alter set_email_sent id (visitors (db w))
  else visitors (db w).
Proof. unfold sendEmails. by destruct (send_hr_ok sv), (send_host_ok sv). Qed.

Lemma sendEmails_sequence sv id person w :
  sqlite_sequence (db (sendEmails sv id person w)) = sqlite_sequence (db w).
Proof. unfold sendEmails. by destruct (send_hr_ok sv), (send_host_ok sv). Qed.

Lemma sendEmails_outbox sv id person w :
  outbox (sendEmails sv id person w) = (outbox w ++ mails_of sv id person)%list.
Proof.
  unfold sendEmails, mails_of.
  destruct (send_hr_ok sv), (send_host_ok sv); simpl;
    by rewrite <- ?app_assoc.
Qed.

Lemma sendEmails_failure_logged sv id person w :
  send_hr_ok sv && send_host_ok sv = false →
  "Email sending failed:" ∈ console (sendEmails sv id person w).
Proof.
  unfold sendEmails.
  destruct (send_hr_ok sv), (send_host_ok sv); simpl; try done;
    intros _; set_solver.
Qed.

Lemma truthy_Some field :
  truthy field = true → ∃ s, field = Some s ∧ s ≠ "".
Proof. destruct field as [[|c s]|]; try done. intros _. by eexists. Qed.

(** A registration either is refused and leaves database and outbox as
    they are, or adds exactly one row, under a rowid that was free. *)
Lemma post_visitors_cases f sv w :
  (status (post_visitors f sv w).2 ≠ 200 ∧
   db (post_visitors f sv w).1 = db w ∧
   outbox (post_visitors f sv w).1 = outbox w) ∨
  (∃ id fn cn dv pv,
     f_full_name f = Some fn ∧ f_contact_number f = Some cn ∧
     f_department_visiting f = Some dv ∧ f_person_to_visit f = Some pv ∧
     Sql.chk_contact cn = true ∧
     visitors (db w) !! id = None ∧
     (post_visitors f sv w).2 =
       mkResponse 200
         (JsonRegistered id "Visitor registered successfully") ∧
     visitors (db (post_visitors f sv w).1) =
       <[id := registered_row fn cn dv pv (f_photo f) sv id]>
         (visitors (db w)) ∧
     outbox (post_visitors f sv w).1 = (outbox w ++ mails_of sv id pv)%list).
Proof.
  unfold post_visitors.
  destruct (truthy (f_full_name f)) eqn:T1; simpl; [|by left].
  destruct (truthy (f_contact_number f)) eqn:T2; simpl; [|by left].
  destruct (truthy (f_department_visiting f)) eqn:T3; simpl; [|by left].
  destruct (truthy (f_person_to_visit f)) eqn:T4; simpl; [|by left].
  apply truthy_Some in T1 as (fn & -> & _).
  apply truthy_Some in T2 as (cn & -> & _).
  apply truthy_Some in T3 as (dv & -> & _).
  apply truthy_Some in T4 as (pv & -> & _). simpl.
  destruct (Sql.insert_visitor _ _ _ _ _ _ _) as [e|[d id]] eqn:Hins;
    [by left|].
  apply insert_visitor_inr in Hins as (Hchk & Hfresh & ->).
  right. exists id, fn, cn, dv, pv.
  unfold generateQRCode, registered_row, qr_path.
  destruct (qr_to_file_ok sv); simpl;
    rewrite sendEmails_visitors, sendEmails_outbox; simpl;
    destruct (send_hr_ok sv && send_host_ok sv); simpl;
    rewrite ?alter_insert_eq; done.
Qed.

(** Whatever it answers, the approval handler has run its UPDATE. *)
Lemma get_approve_world id w :
  (get_approve id w).1 = db_run_update set_approved id w.
Proof. unfold get_approve. simpl. by repeat case_match. Qed.

Lemma handle_existing rq w id r :
  record_of id w = Some r →
  record_of id (handle rq w).1 = Some (touch rq id r).
Proof.
  unfold record_of. intros Hr. destruct rq as [f sv|i|i now|i now| |st]; simpl.
  - destruct (post_visitors_cases f sv w)
      as [(_ & -> & _)|(j & fn & cn & dv & pv & _ & _ & _ & _ & _ & Hj & _ & -> & _)];
      [done|].
    rewrite lookup_insert_ne; [done|congruence].
  - rewrite get_approve_world. simpl.
    rewrite lookup_alter. case_decide; subst; by rewrite ?Hr.
  - rewrite lookup_alter. case_decide; subst; by rewrite ?Hr.
  - rewrite lookup_alter. case_decide; subst; by rewrite ?Hr.
  - done.
  - done.
Qed.

(** Rows appear in the table through registration only. *)
Lemma handle_created rq w id r :
  record_of id w = None →
  record_of id (handle rq w).1 = Some r →
  ∃ f sv fn cn dv pv,
    rq = Register f sv ∧
    f_full_name f = Some fn ∧ f_contact_number f = Some cn ∧
    f_department_visiting f = Some dv ∧ f_person_to_visit f = Some pv ∧
    Sql.chk_contact cn = true ∧
    r = registered_row fn cn dv pv (f_photo f) sv id ∧
    outbox (handle rq w).1 = (outbox w ++ mails_of sv id pv)%list.
Proof.
  unfold record_of. intros Hn.
  destruct rq as [f sv|i|i now|i now| |st]; simpl.
  - destruct (post_visitors_cases f sv w)
      as [(_ & -> & _)|(j & fn & cn & dv & pv & ? & ? & ? & ? & ? & Hj & _ & -> & Ho)];
      [congruence|].
    rewrite lookup_insert. case_decide; [subst j|congruence].
    intros [= <-]. by exists f, sv, fn, cn, dv, pv.
  - rewrite get_approve_world. simpl.
    rewrite lookup_alter. case_decide; subst; rewrite Hn; done.
  - rewrite lookup_alter. case_decide; subst; rewrite Hn; done.
  - rewrite lookup_alter. case_decide; subst; rewrite Hn; done.
  - congruence.
  - congruence.
Qed.

(** The transport's log of calls only grows. *)
Lemma handle_outbox rq w :
  ∃ more, outbox (handle rq w).1 = (outbox w ++ more)%list.
Proof.
  destruct rq as [f sv|i|i now|i now| |st]; simpl;
    rewrite ?get_approve_world; try (exists []; by rewrite app_nil_r).
  destruct (post_visitors_cases f sv w)
    as [(_ & _ & ->)|(j & fn & cn & dv & pv & _ & _ & _ & _ & _ & _ & _ & _ & ->)];
    [exists []; by rewrite app_nil_r|by eexists].
Qed.

Lemma run_app rqs1 rqs2 w : run (rqs1 ++ rqs2) w = run rqs2 (run rqs1 w).
Proof. revert w. induction rqs1 as [|rq rqs1 IH]; intros w; simpl; auto. Qed.

(** Induction over the requests served: a property of worlds that every
    handler preserves holds after any run. *)
Lemma run_invariant (I : world → Prop) :
  (∀ rq w, I w → I (handle rq w).1) →
  ∀ rqs w, I w → I (run rqs w).
Proof.
  intros Hstep rqs. induction rqs as [|rq rqs IH]; intros w Hw; simpl; auto.
Qed.

End handler_facts.

(** ** Unknown ids: release and security checkout *)

(** C1.  The claim asks for 404 on an id without a record.  The two handlers
    never look at [this.changes]: on such an id they answer 200, and they
    change no record (the UPDATE selects no row). *)
Theorem release_checkout_unknown_id_answer_200 w id now :
  record_of id w = None →
  (post_release id now w).2 = mkResponse 200 (Text "OK") ∧
  db (post_release id now w).1 = db w ∧
  (post_security_checkout id now w).2 = mkResponse 200 (Text "OK") ∧
  db (post_security_checkout id now w).1 = db w.
Proof.
  unfold record_of, post_release, post_security_checkout. intros Hn.
  rewrite !update_where_id_absent by done. simpl. by destruct w.
Qed.

Lemma release_checkout_unknown_id_witness :
  (post_release 999 "2025-01-01T11:00:00.000Z" initial_world).2
    = mkResponse 200 (Text "OK") ∧
  db (post_release 999 "2025-01-01T11:00:00.000Z" initial_world).1
    = db initial_world ∧
  (post_security_checkout 999 "2025-01-01T11:00:00.000Z" initial_world).2
    = mkResponse 200 (Text "OK") ∧
  db (post_security_checkout 999 "2025-01-01T11:00:00.000Z" initial_world).1
    = db initial_world.
Proof.
  apply (release_checkout_unknown_id_answer_200 initial_world 999).
  reflexivity.
Defined.

(** ** The release time *)

Section out_time.

Lemma touch_out_time rq id r t :
  out_time r = Some t →
  out_time (touch rq id r) = Some t ∨
  ∃ now, rq = Release id now ∧ out_time (touch rq id r) = Some now.
Proof.
  intros Ht. destruct rq as [f sv|i|i now|i now| |st]; simpl;
    try case_decide; subst; simpl; eauto.
Qed.

(** C2, as the code has it: a second release of the same visitor replaces
    the release time. *)
Lemma second_release_overwrites_out_time :
  out_time <$> record_of 1 Scenario.released
    = Some (Some "2025-01-01T11:00:00.000Z") ∧
  out_time <$>
    record_of 1
      (handle (Release 1 "2025-01-01T12:30:00.000Z") Scenario.released).1
    = Some (Some "2025-01-01T12:30:00.000Z").
Proof. split; vm_compute; reflexivity. Qed.

Lemma touch_out_time_release rq id r t :
  out_time r = Some t →
  out_time (touch rq id r)
  = Some (default t (last_release id [rq])).
Proof.
  intros Ht. destruct rq as [f sv|i|i now|i now| |st]; simpl;
    try case_decide; subst; simpl; done.
Qed.

Lemma last_release_cons id rq rqs t :
  default (default t (last_release id [rq])) (last_release id rqs)
  = default t (last_release id (rq :: rqs)).
Proof.
  simpl. destruct (last_release id rqs); [done|]. simpl.
  destruct rq as [f sv|i|i now|i now| |st]; try done.
Qed.

Lemma last_release_elem_of id rqs now :
  last_release id rqs = Some now → Release id now ∈ rqs.
Proof.
  induction rqs as [|rq rqs IH]; [done|]. simpl.
  destruct (last_release id rqs) as [now'|].
  - intros [= ->]. apply list_elem_of_further. by apply IH.
  - destruct rq as [f sv|i|i now'|i now'| |st]; try done.
    case_decide; [|done]. intros [= ->]. subst i. apply list_elem_of_here.
Qed.

Lemma last_release_None id rqs :
  (∀ now, Release id now ∉ rqs) → last_release id rqs = None.
Proof.
  intros Hno. destruct (last_release id rqs) as [now|] eqn:E; [|done].
  apply last_release_elem_of in E. by apply Hno in E.
Qed.

(** C2, amended.  Once [out_time] is set, the row stays in the table with a
    release time through any run of requests, and that time is known: it is
    the timestamp of the last [Release] of the same id in the run, which
    overwrites what was there, and the time the row had if the run has no
    such release.  So no request clears it, a further release of the same
    id replaces it, and every other request leaves it as it is. *)
Theorem out_time_set_stays_set rqs w id r t :
  record_of id w = Some r →
  out_time r = Some t →
  (∃ r', record_of id (run rqs w) = Some r' ∧
         out_time r' = Some (default t (last_release id rqs))) ∧
  (∀ now, last_release id rqs = Some now → Release id now ∈ rqs) ∧
  ((∀ now, Release id now ∉ rqs) → last_release id rqs = None) ∧
  (∀ now, last_release id (rqs ++ [Release id now]) = Some now).
Proof.
  intros Hr Ht. split_and!.
  - revert w r t Hr Ht.
    induction rqs as [|rq rqs IH]; intros w r t Hr Ht; simpl run.
    + by exists r.
    + pose proof (handle_existing rq w id r Hr) as Hr1.
      pose proof (touch_out_time_release rq id r t Ht) as Ht1.
      destruct (IH _ _ _ Hr1 Ht1) as (r' & Hr' & Ho).
      exists r'. split; [done|]. by rewrite Ho, last_release_cons.
  - apply last_release_elem_of.
  - apply last_release_None.
  - intros now. induction rqs as [|rq rqs IH]; simpl.
    + by rewrite decide_True.
    + by rewrite IH.
Qed.

Lemma out_time_set_stays_set_witness :
  ∃ r', record_of 1
          (run [Approve 1; Release 1 "2025-01-01T12:30:00.000Z";
                ConfirmSecurity 1 "2025-01-01T12:45:00.000Z"]
             Scenario.released) = Some r' ∧
        out_time r' = Some "2025-01-01T12:30:00.000Z".
Proof.
  destruct (out_time_set_stays_set
              [Approve 1; Release 1 "2025-01-01T12:30:00.000Z";
               ConfirmSecurity 1 "2025-01-01T12:45:00.000Z"]
              Scenario.released 1
              (mkVisitor "Jane Doe" "5551234567" "Engineering" "John Smith"
                 "2025-01-01 10:00:00" (Some "2025-01-01T11:00:00.000Z") 0
                 None None 1 0 (Some "uploads/qr-1.png"))
              "2025-01-01T11:00:00.000Z") as [Hlast _];
    [vm_compute; reflexivity | reflexivity |].
  exact Hlast.
Defined.

End out_time.

(** ** Validation of a registration *)

Section validation.

Lemma missing_or_empty_falsy field :
  missing_or_empty field → truthy field = false.
Proof. by intros [-> | ->]. Qed.

(** C3, as the code has it: a name of one space is empty after trimming,
    yet the registration is accepted and stored. *)
Lemma blank_name_is_registered :
  let f := mkForm (Some " ") (Some "5551234567") (Some "Engineering")
             (Some "John Smith") None in
  trim " " = "" ∧
  (post_visitors f Scenario.all_up initial_world).2
    = mkResponse 200 (JsonRegistered 1 "Visitor registered successfully") ∧
  full_name <$>
    record_of 1 (post_visitors f Scenario.all_up initial_world).1
    = Some " ".
Proof. split_and!; vm_compute; reflexivity. Qed.

(** C3, amended.  A registration in which one of the four required fields
    is absent or the empty string is answered 400 and leaves the world,
    the table included, as it was.  The server does not trim. *)
Theorem missing_field_rejected f sv w :
  missing_or_empty (f_full_name f) ∨
  missing_or_empty (f_contact_number f) ∨
  missing_or_empty (f_department_visiting f) ∨
  missing_or_empty (f_person_to_visit f) →
  post_visitors f sv w
    = (w, mkResponse 400 (JsonError "All fields are required")).
Proof.
  unfold post_visitors.
  intros [H|[H|[H|H]]]; apply missing_or_empty_falsy in H; rewrite H;
    simpl; rewrite ?orb_true_r; reflexivity.
Qed.

Lemma missing_field_rejected_witness :
  post_visitors
    (mkForm (Some "Jane Doe") (Some "5551234567") None (Some "") None)
    Scenario.all_up Scenario.registered
    = (Scenario.registered,
       mkResponse 400 (JsonError "All fields are required")).
Proof.
  apply missing_field_rejected. right. right. left. left. reflexivity.
Defined.

End validation.

(** ** Security confirmation *)

Section security.

(** C4, as the code has it: security checkout of a visitor who was never
    released leaves a row with the flag set and no release time. *)
Lemma security_confirmed_without_release :
  ∃ r,
    record_of 1
      (run [ConfirmSecurity 1 "2025-01-01T10:05:00.000Z"]
         Scenario.registered) = Some r ∧
    security_confirmed r = 1 ∧ out_time r = None.
Proof. eexists. split_and!; vm_compute; reflexivity. Qed.

Lemma registered_row_security fn cn dv pv photo sv id :
  security_confirmed (registered_row fn cn dv pv photo sv id) = 0 ∧
  security_out_time (registered_row fn cn dv pv photo sv id) = None ∧
  out_time (registered_row fn cn dv pv photo sv id) = None ∧
  approved (registered_row fn cn dv pv photo sv id) = 0.
Proof.
  unfold registered_row.
  by destruct (qr_to_file_ok sv), (send_hr_ok sv && send_host_ok sv).
Qed.

Lemma touch_security rq id r :
  (security_confirmed (touch rq id r) = security_confirmed r ∧
   security_out_time (touch rq id r) = security_out_time r) ∨
  ∃ now, rq = ConfirmSecurity id now ∧
         security_confirmed (touch rq id r) = 1 ∧
         security_out_time (touch rq id r) = Some now.
Proof.
  destruct rq as [f sv|i|i now|i now| |st]; simpl;
    try case_decide; subst; simpl; eauto.
Qed.

(** C4, amended.  After any run of requests from the initial world, the
    flag of a row is 0 or 1, and it is 1 only if a security checkout of
    that id was served, which stored its timestamp in
    [security_out_time].  The release time plays no part. *)
Theorem security_confirmed_only_by_checkout rqs id r :
  record_of id (run rqs initial_world) = Some r →
  (security_confirmed r = 0 ∨ security_confirmed r = 1) ∧
  (security_confirmed r = 1 →
   ∃ now, ConfirmSecurity id now ∈ rqs ∧ security_out_time r = Some now).
Proof.
  revert id r. induction rqs as [|rq rqs IH] using rev_ind; intros id r.
  - done.
  - rewrite run_app. simpl.
    destruct (record_of id (run rqs initial_world)) as [r0|] eqn:E.
    + rewrite (handle_existing _ _ _ _ E). intros [= <-].
      destruct (IH _ _ E) as [Hflag Hsec].
      destruct (touch_security rq id r0) as [[-> ->]|(now & -> & -> & ->)].
      * split; [done|]. intros H1.
        destruct (Hsec H1) as (now & Hin & Ho). exists now.
        split; [|done]. apply elem_of_app. by left.
      * split; [by right|]. intros _. exists now. split; [|done].
        apply elem_of_app. right. apply list_elem_of_here.
    + intros Hr.
      destruct (handle_created _ _ _ _ E Hr)
        as (f & sv & fn & cn & dv & pv & _ & _ & _ & _ & _ & _ & -> & _).
      destruct (registered_row_security fn cn dv pv (f_photo f) sv id)
        as (-> & _). split; [by left|done].
Qed.

Lemma security_confirmed_only_by_checkout_witness :
  ∃ r,
    record_of 1
      (run [Register Scenario.jane Scenario.all_up;
            ConfirmSecurity 1 "2025-01-01T10:05:00.000Z"] initial_world)
      = Some r ∧
    (security_confirmed r = 0 ∨ security_confirmed r = 1) ∧
    (security_confirmed r = 1 →
     ∃ now,
       ConfirmSecurity 1 now ∈
         [Register Scenario.jane Scenario.all_up;
          ConfirmSecurity 1 "2025-01-01T10:05:00.000Z"] ∧
       security_out_time r = Some now).
Proof.
  eexists. split; [vm_compute; reflexivity|].
  apply security_confirmed_only_by_checkout. vm_compute. reflexivity.
Defined.

End security.

(** ** Registration and its side channels *)

Section registration.

Lemma record_persists rqs w id r :
  record_of id w = Some r → is_Some (record_of id (run rqs w)).
Proof.
  revert w r. induction rqs as [|rq rqs IH]; intros w r Hr; simpl; [eauto|].
  eapply IH, handle_existing, Hr.
Qed.

Lemma generateQRCode_failure_logged sv id w :
  qr_to_file_ok sv = false →
  "QR Code generation failed:" ∈ console (generateQRCode sv id w).1 ∧
  (generateQRCode sv id w).2 = None.
Proof.
  unfold generateQRCode. intros ->. simpl. split; [|done].
  apply elem_of_app. right. apply list_elem_of_here.
Qed.

Lemma sendEmails_console sv id person w line :
  line ∈ console w → line ∈ console (sendEmails sv id person w).
Proof.
  unfold sendEmails. intros Hin.
  destruct (send_hr_ok sv), (send_host_ok sv); simpl;
    rewrite ?elem_of_app; auto.
Qed.

(** C5.  Once the INSERT has succeeded, the registration is answered 200
    with the new id, whatever the QR renderer and the mail transport do:
    their failures end up on the console only.  The row is in the table
    with the submitted fields, it stays there through every later
    request, and rows that were there before are untouched. *)
Theorem registration_outlives_side_channels f sv w fn cn dv pv d id :
  f_full_name f = Some fn → fn ≠ "" →
  f_contact_number f = Some cn → cn ≠ "" →
  f_department_visiting f = Some dv → dv ≠ "" →
  f_person_to_visit f = Some pv → pv ≠ "" →
  Sql.insert_visitor fn cn dv pv (f_photo f) (current_timestamp sv) (db w)
    = inr (d, id) →
  (post_visitors f sv w).2
    = mkResponse 200 (JsonRegistered id "Visitor registered successfully") ∧
  (∃ r, record_of id (post_visitors f sv w).1 = Some r ∧
        full_name r = fn ∧ contact_number r = cn ∧
        department_visiting r = dv ∧ person_to_visit r = pv ∧
        photo_path r = f_photo f ∧ in_time r = current_timestamp sv ∧
        out_time r = None) ∧
  (∀ rqs, is_Some (record_of id (run rqs (post_visitors f sv w).1))) ∧
  (∀ id' r', record_of id' w = Some r' →
             record_of id' (post_visitors f sv w).1 = Some r') ∧
  (qr_to_file_ok sv = false →
   "QR Code generation failed:" ∈ console (post_visitors f sv w).1) ∧
  (send_hr_ok sv && send_host_ok sv = false →
   "Email sending failed:" ∈ console (post_visitors f sv w).1).
Proof.
  intros Hfn Hfn' Hcn Hcn' Hdv Hdv' Hpv Hpv' Hins.
  assert (Hrow : ∃ r, record_of id (post_visitors f sv w).1 = Some r ∧
        full_name r = fn ∧ contact_number r = cn ∧
        department_visiting r = dv ∧ person_to_visit r = pv ∧
        photo_path r = f_photo f ∧ in_time r = current_timestamp sv ∧
        out_time r = None).
  { unfold post_visitors, record_of. rewrite Hfn, Hcn, Hdv, Hpv.
    destruct fn, cn, dv, pv; try done. simpl. rewrite Hins.
    apply insert_visitor_inr in Hins as (_ & _ & ->).
    unfold generateQRCode.
    destruct (qr_to_file_ok sv); simpl; rewrite sendEmails_visitors; simpl;
      destruct (send_hr_ok sv && send_host_ok sv);
      rewrite ?alter_insert_eq, lookup_insert_eq; eexists; split; done. }
  split_and!.
  - unfold post_visitors. rewrite Hfn, Hcn, Hdv, Hpv.
    destruct fn, cn, dv, pv; try done. simpl. rewrite Hins.
    by destruct (generateQRCode sv id (with_db d w)).
  - done.
  - intros rqs. destruct Hrow as (r & Hr & _). by eapply record_persists.
  - intros id' r' Hr'.
    exact (handle_existing (Register f sv) w id' r' Hr').
  - intros Hqr. unfold post_visitors. rewrite Hfn, Hcn, Hdv, Hpv.
    destruct fn, cn, dv, pv; try done. simpl. rewrite Hins.
    destruct (generateQRCode_failure_logged sv id (with_db d w) Hqr)
      as [Hlog Hnone].
    destruct (generateQRCode sv id (with_db d w)) as [w' qr].
    simpl in *. subst qr. by apply sendEmails_console.
  - intros Hmail. unfold post_visitors. rewrite Hfn, Hcn, Hdv, Hpv.
    destruct fn, cn, dv, pv; try done. simpl. rewrite Hins.
    destruct (generateQRCode sv id (with_db d w)) as [w' qr]. simpl.
    by apply sendEmails_failure_logged.
Qed.

Lemma registration_outlives_side_channels_witness :
  (post_visitors Scenario.jane Scenario.all_down initial_world).2
    = mkResponse 200 (JsonRegistered 1 "Visitor registered successfully") ∧
  is_Some
    (record_of 1
       (post_visitors Scenario.jane Scenario.all_down initial_world).1) ∧
  "QR Code generation failed:"
    ∈ console (post_visitors Scenario.jane Scenario.all_down initial_world).1 ∧
  "Email sending failed:"
    ∈ console (post_visitors Scenario.jane Scenario.all_down initial_world).1.
Proof.
  destruct (registration_outlives_side_channels
              Scenario.jane Scenario.all_down initial_world
              "Jane Doe" "5551234567" "Engineering" "John Smith"
              (mkDatabase
                 {[ 1 := mkVisitor "Jane Doe" "5551234567" "Engineering"
                           "John Smith" "2025-01-01 10:00:00" None 0 None
                           None 0 0 None ]} 1) 1)
    as (Hrs & (r & Hr & _) & _ & _ & Hqr & Hmail);
    try reflexivity; try discriminate.
  split_and!; [exact Hrs | by exists r | by apply Hqr | by apply Hmail].
Defined.

End registration.

(** ** Approval *)

Section approval.

Lemma set_approved_idemp r : set_approved (set_approved r) = set_approved r.
Proof. reflexivity. Qed.

Lemma get_approve_found id w r :
  record_of id w = Some r →
  get_approve id w =
    (db_run_update set_approved id w,
     mkResponse 200 (ApprovedPage id (set_approved r))).
Proof.
  unfold record_of, get_approve, db_run_update, Sql.select_by_id.
  intros Hr. simpl. rewrite Hr. simpl. by rewrite lookup_alter_eq, Hr.
Qed.

Lemma db_run_update_record set id w r :
  record_of id w = Some r →
  record_of id (db_run_update set id w) = Some (set r).
Proof.
  unfold record_of. intros Hr. simpl. by rewrite lookup_alter_eq, Hr.
Qed.

(** C8.  Approving an existing visitor answers 200 and sets [approved];
    approving again answers 200 again, with the same page, and leaves the
    world exactly as the first approval left it.  Approving an id without
    a record answers 404 and changes nothing. *)
Theorem approve_idempotent id w :
  (∀ r, record_of id w = Some r →
     let w1 := (get_approve id w).1 in
     let w2 := (get_approve id w1).1 in
     status (get_approve id w).2 = 200 ∧
     (get_approve id w1).2 = (get_approve id w).2 ∧
     (∃ r1, record_of id w1 = Some r1 ∧ approved r1 = 1) ∧
     (∃ r2, record_of id w2 = Some r2 ∧ approved r2 = 1) ∧
     w2 = w1) ∧
  (record_of id w = None →
     get_approve id w = (w, mkResponse 404 (Text "Visitor not found"))).
Proof.
  split.
  - intros r Hr. simpl.
    rewrite (get_approve_found id w r Hr). simpl.
    pose proof (db_run_update_record set_approved id w r Hr) as Hr1.
    rewrite (get_approve_found id _ _ Hr1). simpl.
    pose proof (db_run_update_record set_approved id _ _ Hr1) as Hr2.
    split_and!; [done|done|by eexists|by eexists|].
    unfold db_run_update, with_db. simpl. do 2 f_equal.
    rewrite alter_alter_eq. apply alter_ext. by intros.
  - unfold record_of, get_approve. intros Hn.
    rewrite update_where_id_absent by done. simpl. by destruct w.
Qed.

Lemma approve_idempotent_witness :
  status (get_approve 1 Scenario.registered).2 = 200 ∧
  (get_approve 1 (get_approve 1 Scenario.registered).1).2
    = (get_approve 1 Scenario.registered).2 ∧
  get_approve 7 Scenario.registered
    = (Scenario.registered, mkResponse 404 (Text "Visitor not found")).
Proof.
  destruct (approve_idempotent 1 Scenario.registered) as [Hfound _].
  destruct (approve_idempotent 7 Scenario.registered) as [_ Hmissing].
  destruct (Hfound
              (mkVisitor "Jane Doe" "5551234567" "Engineering" "John Smith"
                 "2025-01-01 10:00:00" None 0 None None 1 0
                 (Some "uploads/qr-1.png")))
    as (H1 & H2 & _); [vm_compute; reflexivity|].
  split_and!; [exact H1 | exact H2 | apply Hmissing; vm_compute; reflexivity].
Defined.

End approval.

(** ** The notification flag *)

Section notification.

Lemma registered_row_email fn cn dv pv photo sv id :
  person_to_visit (registered_row fn cn dv pv photo sv id) = pv ∧
  email_sent (registered_row fn cn dv pv photo sv id)
    = (if send_hr_ok sv && send_host_ok sv then 1 else 0).
Proof.
  unfold registered_row.
  by destruct (qr_to_file_ok sv), (send_hr_ok sv && send_host_ok sv).
Qed.

Lemma touch_email rq id r :
  email_sent (touch rq id r) = email_sent r ∧
  person_to_visit (touch rq id r) = person_to_visit r.
Proof.
  destruct rq as [f sv|i|i now|i now| |st]; simpl;
    try case_decide; done.
Qed.

Lemma notified_means_both_delivered_step rq w :
  notified_means_both_delivered w →
  notified_means_both_delivered (handle rq w).1.
Proof.
  intros Hw id r Hr.
  destruct (handle_outbox rq w) as [more Hmore].
  destruct (record_of id w) as [r0|] eqn:E.
  - rewrite (handle_existing _ _ _ _ E) in Hr. injection Hr as <-.
    destruct (touch_email rq id r0) as [-> ->].
    destruct (Hw id r0 E) as [Hflag Hsent]. split; [done|].
    intros H1. destruct (Hsent H1). rewrite Hmore, !elem_of_app. auto.
  - destruct (handle_created _ _ _ _ E Hr)
      as (f & sv & fn & cn & dv & pv & _ & _ & _ & _ & _ & _ & -> & ->).
    destruct (registered_row_email fn cn dv pv (f_photo f) sv id)
      as [-> ->].
    unfold mails_of.
    destruct (send_hr_ok sv), (send_host_ok sv); simpl;
      (split; [auto|]); try done.
    intros _. rewrite !elem_of_app, !elem_of_cons. auto.
Qed.

(** C10.  [sendEmails] sets [email_sent] only after both [sendMail] calls
    have resolved.  If the mail to HR is rejected, the transport sees that
    one call and no call for the host, and the database is left as it was.
    For a row whose flag was 0, the flag is 1 afterwards exactly when both
    mails went out.  And after any run of requests, every row has the flag
    at 0 or 1, and at 1 only with both of its mails delivered. *)
Theorem email_sent_means_both_delivered :
  (∀ sv id person w,
     send_hr_ok sv = false →
     outbox (sendEmails sv id person w)
       = (outbox w ++ [mkMail HR_EMAIL id false])%list ∧
     db (sendEmails sv id person w) = db w) ∧
  (∀ sv id person w r,
     record_of id w = Some r → email_sent r = 0 →
     ∃ r', record_of id (sendEmails sv id person w) = Some r' ∧
           (email_sent r' = 1 ↔
            send_hr_ok sv = true ∧ send_host_ok sv = true) ∧
           (email_sent r' = 1 ∨ email_sent r' = 0)) ∧
  (∀ rqs, notified_means_both_delivered (run rqs initial_world)).
Proof.
  split_and!.
  - intros sv id person w Hhr. rewrite sendEmails_outbox.
    unfold mails_of, sendEmails. by rewrite Hhr.
  - intros sv id person w r Hr H0. unfold record_of in *.
    rewrite sendEmails_visitors.
    destruct (send_hr_ok sv), (send_host_ok sv); simpl;
      rewrite ?lookup_alter_eq, Hr; simpl; eexists; (split; [done|]);
      simpl; rewrite ?H0; split; auto; try split; try done;
      intros [? ?]; done.
  - intros rqs. apply run_invariant.
    + apply notified_means_both_delivered_step.
    + intros id r Hr. done.
Qed.

Lemma email_sent_means_both_delivered_witness :
  outbox
    (sendEmails (mkServices "2025-01-01 10:00:00" true false true) 1
       "John Smith" Scenario.registered)
    = (outbox Scenario.registered ++ [mkMail HR_EMAIL 1 false])%list ∧
  (∃ r, record_of 1 Scenario.registered = Some r ∧ email_sent r = 1 ∧
        mkMail HR_EMAIL 1 true ∈ outbox Scenario.registered ∧
        mkMail (HostAddress (person_to_visit r)) 1 true
          ∈ outbox Scenario.registered).
Proof.
  destruct email_sent_means_both_delivered as (Hhr & _ & Hinv).
  split.
  - apply Hhr. reflexivity.
  - eexists. split; [vm_compute; reflexivity|].
    split; [reflexivity|].
    apply (Hinv [Register Scenario.jane Scenario.all_up] 1);
      vm_compute; reflexivity.
Defined.

End notification.

(** ** Statistics *)

Section statistics.

Implicit Types (rows : list visitor) (r : visitor).

Lemma flags_boolean_run rqs : flags_boolean (run rqs initial_world).
Proof.
  apply run_invariant; [|done].
  intros rq w Hw id r Hr. destruct (record_of id w) as [r0|] eqn:E.
  - rewrite (handle_existing _ _ _ _ E) in Hr. injection Hr as <-.
    destruct (touch_security rq id r0) as [[-> _]|(_ & _ & -> & _)];
      [by eapply Hw|by right].
  - destruct (handle_created _ _ _ _ E Hr)
      as (f & sv & fn & cn & dv & pv & _ & _ & _ & _ & _ & _ & -> & _).
    destruct (registered_row_security fn cn dv pv (f_photo f) sv id)
      as (-> & _). by left.
Qed.

Lemma is_active_spec r : is_active r = true ↔ out_time r = None.
Proof. unfold is_active. by destruct (out_time r). Qed.

Lemma is_secured_spec r :
  is_secured r = true ↔ is_Some (out_time r) ∧ security_confirmed r = 1.
Proof.
  unfold is_secured. destruct (out_time r); simpl.
  - rewrite Z.eqb_eq. split; [by eauto|by intros [_ ?]].
  - split; [done|]. by intros [[? ?] _].
Qed.

Lemma is_security_pending_spec r :
  is_security_pending r = true ↔
  is_Some (out_time r) ∧ security_confirmed r = 0.
Proof.
  unfold is_security_pending. destruct (out_time r); simpl.
  - rewrite Z.eqb_eq. split; [by eauto|by intros [_ ?]].
  - split; [done|]. by intros [[? ?] _].
Qed.

Lemma or_zero_Some n : or_zero (Some n) = n.
Proof. simpl. destruct (Z.eqb_spec n 0); congruence. Qed.

Lemma foldr_case_when (c : visitor → bool) rows :
  foldr Z.add 0 ((λ r, Sql.case_when (c r)) <$> rows)
  = Z.of_nat (length (filter (λ r, c r = true) rows)).
Proof.
  induction rows as [|r rows IH]; [done|]. rewrite fmap_cons. simpl foldr.
  rewrite IH, filter_cons.
  destruct (c r); case_decide; try done; simpl length; simpl Sql.case_when;
    lia.
Qed.

(** [SUM(CASE WHEN c THEN 1 ELSE 0 END) || 0] counts the rows with [c]. *)
Lemma sum_case_when (c : visitor → bool) rows :
  or_zero (Sql.sum ((λ r, Sql.case_when (c r)) <$> rows))
  = Z.of_nat (length (filter (λ r, c r = true) rows)).
Proof.
  rewrite <- foldr_case_when. destruct rows as [|r0 rows0]; [done|].
  rewrite fmap_cons. unfold Sql.sum. apply or_zero_Some.
Qed.

(** Every row with a boolean flag falls under exactly one of the three
    conditions. *)
Lemma three_way_count rows :
  Forall (λ r, security_confirmed r = 0 ∨ security_confirmed r = 1) rows →
  length rows =
    (length (filter (λ r, is_active r = true) rows) +
     length (filter (λ r, is_secured r = true) rows) +
     length (filter (λ r, is_security_pending r = true) rows))%nat.
Proof.
  induction 1 as [|r rows Hr Hrows IH]; [done|].
  rewrite !filter_cons. simpl length. rewrite IH.
  unfold is_active, is_secured, is_security_pending.
  destruct (out_time r), Hr as [-> | ->]; simpl;
    repeat (case_decide; try done); simpl; lia.
Qed.

(** C6.  After any run of requests, [Stats] answers 200 with four counts:
    the number of rows, of rows without release time, of released rows
    with the flag set, of released rows with the flag clear; and the first
    is the sum of the other three. *)
Theorem stats_total_is_sum rqs :
  let w := run rqs initial_world in
  ∃ total active secured security_pending,
    handle Stats w
      = (w, mkResponse 200
              (JsonStats total active secured security_pending)) ∧
    total = Z.of_nat (size (visitors (db w))) ∧
    active = count_where (λ r, out_time r = None) w ∧
    secured =
      count_where
        (λ r, is_Some (out_time r) ∧ security_confirmed r = 1) w ∧
    security_pending =
      count_where
        (λ r, is_Some (out_time r) ∧ security_confirmed r = 0) w ∧
    total = active + secured + security_pending.
Proof.
  intros w. unfold handle, get_stats.
  set (rows := (map_to_list (visitors (db w))).*2).
  do 4 eexists. split; [reflexivity|].
  rewrite or_zero_Some, !sum_case_when. unfold Sql.count, count_where.
  fold rows.
  assert (Hflags :
    Forall (λ r, security_confirmed r = 0 ∨ security_confirmed r = 1) rows).
  { apply Forall_forall. intros r Hin.
    apply list_elem_of_fmap in Hin as ([id r'] & -> & Hin).
    apply elem_of_map_to_list in Hin.
    exact (flags_boolean_run rqs id r' Hin). }
  split_and!.
  - unfold rows. by rewrite length_fmap, length_map_to_list.
  - f_equal. f_equal. apply list_filter_iff. intros r. apply is_active_spec.
  - f_equal. f_equal. apply list_filter_iff. intros r. apply is_secured_spec.
  - f_equal. f_equal. apply list_filter_iff. intros r.
    apply is_security_pending_spec.
  - rewrite (three_way_count rows Hflags). lia.
Qed.

End statistics.

(** ** Listing *)

Section listing.

Implicit Types (w : world) (d : database) (r : visitor) (id : Z).

Lemma where_status_active r :
  where_status (Some "active") r = is_active r.
Proof. reflexivity. Qed.

Lemma where_status_released r :
  where_status (Some "released") r = is_secured r.
Proof. reflexivity. Qed.

Lemma where_status_security_pending r :
  where_status (Some "security-pending") r = is_security_pending r.
Proof. reflexivity. Qed.

Lemma where_status_other status r :
  status ≠ Some "active" → status ≠ Some "released" →
  status ≠ Some "security-pending" →
  where_status status r = true.
Proof. intros. unfold where_status. by rewrite !decide_False. Qed.

(** The rows of the answer are the rows of the table that pass the WHERE
    clause. *)
Lemma elem_of_select_visitors status d id r :
  (id, r) ∈ select_visitors status d ↔
  visitors d !! id = Some r ∧ where_status status r = true.
Proof.
  unfold select_visitors, Sql.order_by_in_time_desc.
  rewrite merge_sort_Permutation, list_elem_of_filter, elem_of_map_to_list.
  simpl. tauto.
Qed.

Lemma select_visitors_NoDup status d : NoDup (select_visitors status d).
Proof.
  unfold select_visitors, Sql.order_by_in_time_desc.
  rewrite merge_sort_Permutation. apply NoDup_filter, NoDup_map_to_list.
Qed.

Lemma select_visitors_sorted status d :
  StronglySorted Sql.in_time_desc (select_visitors status d).
Proof. apply StronglySorted_merge_sort; apply _. Qed.

Lemma StronglySorted_lookup_lt {A} (R : relation A) (l : list A) i j a b :
  StronglySorted R l → (i < j)%nat →
  l !! i = Some a → l !! j = Some b → R a b.
Proof.
  intros Hs. revert i j. induction Hs as [|x l Hs IH Hall]; intros i j Hij.
  - by rewrite lookup_nil.
  - destruct j as [|j]; [lia|]. destruct i as [|i]; simpl.
    + intros [= <-] Hb. rewrite Forall_forall in Hall. apply Hall.
      by eapply list_elem_of_lookup_2.
    + apply IH. lia.
Qed.

Lemma out_time_stays_set rqs w id r :
  record_of id w = Some r → is_Some (out_time r) →
  ∃ r', record_of id (run rqs w) = Some r' ∧ is_Some (out_time r').
Proof.
  revert w r. induction rqs as [|rq rqs IH]; intros w r Hr [t Ht]; simpl.
  - eauto.
  - eapply IH; [by apply handle_existing|].
    destruct (touch_out_time rq id r t Ht) as [->|(now & _ & ->)]; eauto.
Qed.

(** C7.  [List] answers 200 with the rows of the table that match the
    filter, each once, the later [in_time] first.  The filter [active]
    keeps the rows without release time, [released] the released rows with
    the security flag set, [security-pending] the released rows with the
    flag clear; no filter, or any other word, keeps every row.  Once a
    visitor that is in the table has been released then, whatever requests
    follow, its row is not in the [active] list, and it is in the
    [released] or in the [security-pending] list according to its flag. *)
Theorem list_matching_newest_first :
  (∀ status w,
     handle (List status) w
       = (w, mkResponse 200 (JsonVisitors (select_visitors status (db w))))
     ∧ NoDup (select_visitors status (db w))
     ∧ ∀ i j a b, (i < j)%nat →
         select_visitors status (db w) !! i = Some a →
         select_visitors status (db w) !! j = Some b →
         String.le (in_time b.2) (in_time a.2)) ∧
  (∀ w id r,
     ((id, r) ∈ select_visitors (Some "active") (db w) ↔
      record_of id w = Some r ∧ out_time r = None) ∧
     ((id, r) ∈ select_visitors (Some "released") (db w) ↔
      record_of id w = Some r ∧
      is_Some (out_time r) ∧ security_confirmed r = 1) ∧
     ((id, r) ∈ select_visitors (Some "security-pending") (db w) ↔
      record_of id w = Some r ∧
      is_Some (out_time r) ∧ security_confirmed r = 0) ∧
     (∀ status,
        status ≠ Some "active" → status ≠ Some "released" →
        status ≠ Some "security-pending" →
        (id, r) ∈ select_visitors status (db w) ↔
        record_of id w = Some r)) ∧
  (∀ rqs1 rqs2 id now,
     is_Some (record_of id (run rqs1 initial_world)) →
     let w := run (rqs1 ++ Release id now :: rqs2) initial_world in
     (∀ r, (id, r) ∉ select_visitors (Some "active") (db w)) ∧
     ∃ r, record_of id w = Some r ∧
          (security_confirmed r = 1 ∧
           (id, r) ∈ select_visitors (Some "released") (db w) ∧
           (id, r) ∉ select_visitors (Some "security-pending") (db w)
           ∨
           security_confirmed r = 0 ∧
           (id, r) ∈ select_visitors (Some "security-pending") (db w) ∧
           (id, r) ∉ select_visitors (Some "released") (db w))).
Proof.
  split_and!.
  - intros status w. split_and!; [done|apply select_visitors_NoDup|].
    intros i j a b Hij Ha Hb.
    exact (StronglySorted_lookup_lt _ _ i j a b
             (select_visitors_sorted status (db w)) Hij Ha Hb).
  - intros w id r. unfold record_of. split_and!.
    + by rewrite elem_of_select_visitors, where_status_active,
        is_active_spec.
    + by rewrite elem_of_select_visitors, where_status_released,
        is_secured_spec.
    + by rewrite elem_of_select_visitors, where_status_security_pending,
        is_security_pending_spec.
    + intros status H1 H2 H3.
      rewrite elem_of_select_visitors, where_status_other by done. tauto.
  - intros rqs1 rqs2 id now [r0 Hr0]. simpl.
    pose proof (flags_boolean_run (rqs1 ++ Release id now :: rqs2)) as Hfl.
    rewrite run_app in *. simpl in *.
    pose proof (handle_existing (Release id now) _ _ _ Hr0) as Hr1.
    simpl in Hr1. rewrite decide_True in Hr1 by done.
    destruct (out_time_stays_set rqs2 _ _ _ Hr1) as (r & Hr & Ho);
      [by eexists|].
    split.
    + intros r'. rewrite elem_of_select_visitors, where_status_active,
        is_active_spec. intros [Hr' Hn]. unfold record_of in Hr.
      rewrite Hr in Hr'. injection Hr' as <-. rewrite Hn in Ho.
      by destruct Ho.
    + exists r. split; [done|].
      rewrite !elem_of_select_visitors, where_status_released,
        where_status_security_pending, is_secured_spec,
        is_security_pending_spec.
      unfold record_of in Hr.
      destruct (Hfl id r Hr) as [H0|H1]; [right|left];
        (split; [done|]); (split; [done|]); intros (_ & _ & ?); congruence.
Qed.

Lemma list_matching_newest_first_witness :
  (∀ r, (1, r) ∉ select_visitors (Some "active") (db Scenario.released)) ∧
  ∃ r, record_of 1 Scenario.released = Some r ∧
       security_confirmed r = 0 ∧
       (1, r) ∈ select_visitors (Some "security-pending")
                  (db Scenario.released).
Proof.
  destruct list_matching_newest_first as (_ & _ & Hrel).
  destruct (Hrel [Register Scenario.jane Scenario.all_up] [] 1
              "2025-01-01T11:00:00.000Z")
    as (Hact & r & Hr & Hcase); [vm_compute; eauto|].
  split; [exact Hact|]. exists r. split; [exact Hr|].
  destruct Hcase as [(H1 & _)|(H0 & Hin & _)]; [|by split].
  exfalso. vm_compute in Hr. injection Hr as <-. discriminate H1.
Defined.

End listing.

(** ** The contact number *)

Section contact_number.

(** What the constraint does keep out: a contact number that does not
    start with a digit is answered 500 and nothing is stored. *)
Lemma contact_without_leading_digit_rejected f sv w cn :
  f_contact_number f = Some cn →
  Sql.chk_contact cn = false →
  status (post_visitors f sv w).2 ≠ 200 ∧
  db (post_visitors f sv w).1 = db w.
Proof.
  intros Hcn Hchk.
  destruct (post_visitors_cases f sv w)
    as [(? & ? & _)|(id & fn & cn' & dv & pv & _ & Hcn' & _ & _ & Hok & _)];
    [done|].
  congruence.
Qed.

(** C9.  The claim asks that a contact number with a character that is
    not a digit be refused.  The handler checks only that the field is
    not empty, and the GLOB pattern of [chk_contact] asks for one digit
    followed by anything: the number [5abc] is stored and the
    registration answered 200. *)
Theorem contact_with_letters_is_registered :
  let f := mkForm (Some "Jane Doe") (Some "5abc") (Some "Engineering")
             (Some "John Smith") None in
  all_digits "5abc" = false ∧
  Sql.chk_contact "5abc" = true ∧
  (post_visitors f Scenario.all_up initial_world).2
    = mkResponse 200 (JsonRegistered 1 "Visitor registered successfully") ∧
  contact_number <$>
    record_of 1 (post_visitors f Scenario.all_up initial_world).1
    = Some "5abc".
Proof. split_and!; vm_compute; reflexivity. Qed.

End contact_number.

(** ** Rowids *)

Section rowids.

Implicit Types (w : world) (d : database) (r : visitor) (id : Z)
  (sv : services) (f : form).

Lemma max_rowid_nonneg (m : gmap Z visitor) : 0 ≤ Sql.max_rowid m.
Proof.
  unfold Sql.max_rowid. induction ((map_to_list m).*1); simpl; lia.
Qed.

Lemma insert_visitor_next fn cn dv pv photo now d d' id :
  Sql.insert_visitor fn cn dv pv photo now d = inr (d', id) →
  id = Sql.next_rowid d ∧ sqlite_sequence d' = id.
Proof.
  unfold Sql.insert_visitor. repeat case_match; try done.
  by intros [= <- <-].
Qed.

Lemma generateQRCode_db sv id w :
  db (generateQRCode sv id w).1 = db w.
Proof. unfold generateQRCode. by destruct (qr_to_file_ok sv). Qed.

(** A registration that is answered 200 was given the next rowid, and the
    counter is left at it; any other answer leaves the database alone. *)
Lemma post_visitors_sequence f sv w :
  (status (post_visitors f sv w).2 ≠ 200 ∧
   db (post_visitors f sv w).1 = db w) ∨
  ((post_visitors f sv w).2 = registered_as (Sql.next_rowid (db w)) ∧
   sqlite_sequence (db (post_visitors f sv w).1) = Sql.next_rowid (db w)).
Proof.
  unfold post_visitors.
  destruct (negb (truthy (f_full_name f)) || _ || _ || _); [by left|].
  destruct (Sql.insert_visitor _ _ _ _ _ _ _) as [e|[d id]] eqn:Hins;
    [by left|].
  apply insert_visitor_next in Hins as [-> Hseq]. right.
  destruct (generateQRCode sv _ (with_db d w)) as [w' qr] eqn:Hqr.
  split; [done|]. simpl. rewrite sendEmails_sequence.
  pose proof (generateQRCode_db sv (Sql.next_rowid (db w)) (with_db d w))
    as Hdb. rewrite Hqr in Hdb. simpl in Hdb.
  destruct qr; simpl; by rewrite Hdb.
Qed.

Lemma registered_as_inj id id' : registered_as id = registered_as id' → id = id'.
Proof. by intros [= ->]. Qed.

Lemma next_rowid_above d :
  sqlite_sequence d < Sql.next_rowid d ∧ 1 ≤ Sql.next_rowid d ∧
  ∀ id r, visitors d !! id = Some r → id < Sql.next_rowid d.
Proof.
  unfold Sql.next_rowid. pose proof (max_rowid_nonneg (visitors d)).
  split_and!; [lia|lia|]. intros id r Hr. apply max_rowid_ge in Hr. lia.
Qed.

(** No request lowers the AUTOINCREMENT counter. *)
Lemma handle_sequence rq w :
  sqlite_sequence (db w) ≤ sqlite_sequence (db (handle rq w).1).
Proof.
  destruct rq as [f sv|i|i now|i now| |st]; simpl;
    rewrite ?get_approve_world; simpl; try lia.
  destruct (post_visitors_sequence f sv w) as [[_ ->]|[_ ->]]; [lia|].
  pose proof (next_rowid_above (db w)). lia.
Qed.

Lemma run_sequence rqs w :
  sqlite_sequence (db w) ≤ sqlite_sequence (db (run rqs w)).
Proof.
  revert w. induction rqs as [|rq rqs IH]; intros w; simpl; [lia|].
  etrans; [apply (handle_sequence rq)|apply IH].
Qed.

(** X1.  The id of a registration is positive, above the counter and above every
    rowid of the table; and a later registration, whatever was served in
    between, is given a larger id. *)
Theorem registration_ids_increase f sv w id :
  (post_visitors f sv w).2 = registered_as id →
  1 ≤ id ∧
  sqlite_sequence (db w) < id ∧
  (∀ id' r, record_of id' w = Some r → id' < id) ∧
  (∀ rqs f' sv' id',
     (post_visitors f' sv' (run rqs (post_visitors f sv w).1)).2
       = registered_as id' →
     id < id').
Proof.
  intros Hrs.
  destruct (post_visitors_sequence f sv w) as [[Hne _]|[Hid Hseq]].
  { rewrite Hrs in Hne. done. }
  rewrite Hrs in Hid. apply registered_as_inj in Hid. subst id.
  destruct (next_rowid_above (db w)) as (H1 & H2 & H3).
  split_and!; [done|done|exact H3|].
  intros rqs f' sv' id' Hrs'.
  set (w1 := (post_visitors f sv w).1) in *.
  destruct (post_visitors_sequence f' sv' (run rqs w1)) as [[Hne _]|[Hid' _]].
  { rewrite Hrs' in Hne. done. }
  rewrite Hrs' in Hid'. apply registered_as_inj in Hid'. subst id'.
  pose proof (run_sequence rqs w1).
  pose proof (next_rowid_above (db (run rqs w1))) as (? & _ & _). lia.
Qed.

Lemma registration_ids_increase_witness :
  1 ≤ 1 ∧
  ∀ id', (post_visitors Scenario.jane Scenario.all_down
            (run [Release 1 "2025-01-01T11:00:00.000Z"]
               (post_visitors Scenario.jane Scenario.all_up initial_world).1)).2
           = registered_as id' → 1 < id'.
Proof.
  destruct (registration_ids_increase Scenario.jane Scenario.all_up
              initial_world 1) as (H1 & _ & _ & Hlater); [reflexivity|].
  split; [exact H1|]. intros id'. apply Hlater.
Defined.

End rowids.

(** ** What never changes in a row *)

Section rows_over_time.

Implicit Types (w : world) (r : visitor) (id : Z).

(** A relation between the states of a row that every request respects
    holds between a row and what any run makes of it; the row is never
    removed. *)
Lemma run_preserves (R : visitor → visitor → Prop) :
  (∀ r, R r r) → (∀ a b c, R a b → R b c → R a c) →
  (∀ rq id r, R r (touch rq id r)) →
  ∀ rqs w id r, record_of id w = Some r →
    ∃ r', record_of id (run rqs w) = Some r' ∧ R r r'.
Proof.
  intros Hrefl Htrans Hstep rqs.
  induction rqs as [|rq rqs IH]; intros w id r Hr; simpl; [eauto|].
  destruct (IH _ id _ (handle_existing rq w id r Hr)) as (r' & Hr' & HR).
  exists r'. split; [done|]. eapply Htrans; [apply Hstep|exact HR].
Qed.



(** X3.  No request takes back a flag: a row that is approved, confirmed by
    security or marked as notified stays so, and a security checkout time
    stays set, through any run of requests. *)
Theorem flags_never_reset rqs w id r :
  record_of id w = Some r →
  ∃ r', record_of id (run rqs w) = Some r' ∧
        (approved r = 1 → approved r' = 1) ∧
        (security_confirmed r = 1 → security_confirmed r' = 1) ∧
        (email_sent r = 1 → email_sent r' = 1) ∧
        (is_Some (security_out_time r) → is_Some (security_out_time r')).
Proof.
  apply (run_preserves
           (λ r r', (approved r = 1 → approved r' = 1) ∧
                    (security_confirmed r = 1 → security_confirmed r' = 1) ∧
                    (email_sent r = 1 → email_sent r' = 1) ∧
                    (is_Some (security_out_time r) →
                     is_Some (security_out_time r')))).
  - done.
  - intros a b c (?&?&?&?) (?&?&?&?). split_and!; auto.
  - intros rq i r0. destruct rq as [f sv|j|j now|j now| |st]; simpl;
      try case_decide; split_and!; simpl; eauto.
Qed.

Lemma flags_never_reset_witness :
  ∃ r', record_of 1
          (run [Release 1 "2025-01-01T11:00:00.000Z"; Approve 1; Stats]
             (run [Approve 1] Scenario.registered)) = Some r' ∧
        approved r' = 1 ∧ email_sent r' = 1.
Proof.
  destruct (flags_never_reset
              [Release 1 "2025-01-01T11:00:00.000Z"; Approve 1; Stats]
              (run [Approve 1] Scenario.registered) 1
              (mkVisitor "Jane Doe" "5551234567" "Engineering" "John Smith"
                 "2025-01-01 10:00:00" None 0 None None 1 1
                 (Some "uploads/qr-1.png")))
    as (r' & Hr' & Ha & _ & He & _); [vm_compute; reflexivity|].
  exists r'. split_and!; [exact Hr' | by apply Ha | by apply He].
Defined.

Lemma touch_approved rq id r :
  approved (touch rq id r) = approved r ∨
  rq = Approve id ∧ approved (touch rq id r) = 1.
Proof.
  destruct rq as [f sv|i|i now|i now| |st]; simpl;
    try case_decide; subst; simpl; auto.
Qed.

(** X4.  After any run from the initial world, [approved] is 0 or 1 in every
    row, and 1 only if an approval of that id was served. *)
Theorem approved_only_by_approve rqs id r :
  record_of id (run rqs initial_world) = Some r →
  (approved r = 0 ∨ approved r = 1) ∧
  (approved r = 1 → Approve id ∈ rqs).
Proof.
  revert id r. induction rqs as [|rq rqs IH] using rev_ind; intros id r.
  - done.
  - rewrite run_app. simpl.
    destruct (record_of id (run rqs initial_world)) as [r0|] eqn:E.
    + rewrite (handle_existing _ _ _ _ E). intros [= <-].
      destruct (IH _ _ E) as [Hflag Hby].
      destruct (touch_approved rq id r0) as [->|[-> ->]].
      * split; [done|]. intros H1. apply elem_of_app. left. by apply Hby.
      * split; [by right|]. intros _. apply elem_of_app. right.
        apply list_elem_of_here.
    + intros Hr.
      destruct (handle_created _ _ _ _ E Hr)
        as (f & sv & fn & cn & dv & pv & _ & _ & _ & _ & _ & _ & -> & _).
      destruct (registered_row_security fn cn dv pv (f_photo f) sv id)
        as (_ & _ & _ & ->). split; [by left|done].
Qed.

Lemma approved_only_by_approve_witness :
  ∃ r, record_of 1
         (run [Register Scenario.jane Scenario.all_up; Approve 1]
            initial_world) = Some r ∧
       (approved r = 1 →
        Approve 1 ∈ [Register Scenario.jane Scenario.all_up; Approve 1]).
Proof.
  eexists. split; [vm_compute; reflexivity|].
  apply approved_only_by_approve. vm_compute. reflexivity.
Defined.

End rows_over_time.

(** ** Dashboard notifications *)

Section dashboard.

Implicit Types (w : world) (id : Z).

Lemma sendEmails_broadcasts sv id person w :
  broadcasts (sendEmails sv id person w) = broadcasts w.
Proof. unfold sendEmails. by destruct (send_hr_ok sv), (send_host_ok sv). Qed.

Lemma post_visitors_broadcasts f sv w :
  broadcasts (post_visitors f sv w).1 = broadcasts w.
Proof.
  unfold post_visitors, generateQRCode. repeat case_match; simplify_eq/=;
    rewrite ?sendEmails_broadcasts; done.
Qed.

Lemma handle_broadcasts rq w :
  broadcasts (handle rq w).1
  = (broadcasts w + if notifies rq then 1 else 0)%nat.
Proof.
  destruct rq as [f sv|i|i now|i now| |st]; simpl;
    rewrite ?get_approve_world, ?post_visitors_broadcasts; simpl; lia.
Qed.

(** X5.  The dashboards are notified once for every release and every security
    checkout served, whether the id had a record or not, and on no other
    request: not when a visitor registers, not when one is approved. *)
Theorem one_broadcast_per_release_or_checkout rqs w :
  broadcasts (run rqs w)
  = (broadcasts w + length (filter (λ rq, notifies rq = true) rqs))%nat.
Proof.
  revert w. induction rqs as [|rq rqs IH]; intros w; simpl; [lia|].
  rewrite IH, handle_broadcasts, filter_cons.
  destruct (notifies rq); simpl; lia.
Qed.

End dashboard.

(** ** How release, security checkout and approval compose *)

Section composition.

Implicit Types (w : world) (id : Z) (m : gmap Z visitor).

Lemma alter_commute m (g h : visitor → visitor) i j :
  (∀ r, g (h r) = h (g r)) →
  alter g i (alter h j m) = alter h j (alter g i m).
Proof.
  intros Hgh. apply map_eq. intros k. rewrite !lookup_alter.
  repeat case_decide; subst; rewrite ?lookup_alter_eq, ?lookup_alter_ne by done;
    try done.
  destruct (m !! k); simpl; by rewrite ?Hgh.
Qed.

Lemma alter_absorb m (g h : visitor → visitor) i :
  (∀ r, g (h r) = g r) → alter g i (alter h i m) = alter g i m.
Proof.
  intros Hgh. rewrite alter_alter_eq. apply alter_ext. intros r _. apply Hgh.
Qed.

(** X6.  A release and a security checkout, of the same visitor or of two, lead
    to the same world in either order; and an approval leaves the same
    database whether it is served before or after either of them. *)
Theorem release_checkout_approve_commute w i j t t' :
  (post_release i t (post_security_checkout j t' w).1).1
    = (post_security_checkout j t' (post_release i t w).1).1 ∧
  db (get_approve i (post_release j t w).1).1
    = db (post_release j t (get_approve i w).1).1 ∧
  db (get_approve i (post_security_checkout j t w).1).1
    = db (post_security_checkout j t (get_approve i w).1).1.
Proof.
  rewrite !get_approve_world.
  unfold post_release, post_security_checkout, db_run_update,
    notifyDashboardUpdate, with_db. simpl.
  split_and!; [do 2 f_equal|f_equal..]; by apply alter_commute.
Qed.

(** X7.  Of several releases of one visitor only the last one counts for the
    database, and likewise for security checkouts: the earlier timestamp is
    overwritten, nothing else of it remains. *)
Theorem last_release_and_last_checkout_win w id t1 t2 :
  db (post_release id t2 (post_release id t1 w).1).1
    = db (post_release id t2 w).1 ∧
  db (post_security_checkout id t2 (post_security_checkout id t1 w).1).1
    = db (post_security_checkout id t2 w).1.
Proof.
  unfold post_release, post_security_checkout. simpl.
  split; f_equal; by apply alter_absorb.
Qed.

End composition.

(** ** A contact number the constraint refuses *)

Section constraint_failure.

(** X8.  A registration with all four fields filled in whose contact number does
    not start with a digit is not answered 400 but 500, with the message of
    a server failure; the failure is logged and the database is left as it
    was. *)
Theorem bad_contact_is_a_server_error f sv w fn cn dv pv :
  f_full_name f = Some fn → fn ≠ "" →
  f_contact_number f = Some cn → cn ≠ "" →
  f_department_visiting f = Some dv → dv ≠ "" →
  f_person_to_visit f = Some pv → pv ≠ "" →
  Sql.chk_contact cn = false →
  post_visitors f sv w
  = (console_write "Database error:" w,
     mkResponse 500 (JsonError "Failed to register visitor")).
Proof.
  intros Hfn ? Hcn ? Hdv ? Hpv ? Hchk. unfold post_visitors.
  rewrite Hfn, Hcn, Hdv, Hpv. destruct fn, cn, dv, pv; try done. simpl.
  unfold Sql.insert_visitor. by rewrite Hchk.
Qed.

Lemma bad_contact_is_a_server_error_witness :
  post_visitors
    (mkForm (Some "Jane Doe") (Some "+15551234567") (Some "Engineering")
       (Some "John Smith") None)
    Scenario.all_up initial_world
  = (console_write "Database error:" initial_world,
     mkResponse 500 (JsonError "Failed to register visitor")).
Proof.
  apply (bad_contact_is_a_server_error _ _ _ "Jane Doe" "+15551234567"
           "Engineering" "John Smith"); done.
Defined.

End constraint_failure.

(** ** How the statistics move *)

Section statistics_over_time.

Implicit Types (w : world) (r : visitor) (id : Z) (rows : list visitor).

Lemma tally_cons c r rows :
  tally c (r :: rows) = Sql.case_when (c r) + tally c rows.
Proof.
  unfold tally. rewrite filter_cons.
  destruct (c r); case_decide; try done; simpl length; simpl Sql.case_when;
    lia.
Qed.

Lemma tally_perm c rows rows' : rows ≡ₚ rows' → tally c rows = tally c rows'.
Proof. intros H. unfold tally. by rewrite H. Qed.

Lemma tally_nonneg c rows : 0 ≤ tally c rows.
Proof. unfold tally. lia. Qed.

(** The four numbers of the answer, as counts over the rows. *)
Lemma get_stats_tally w :
  get_stats w
  = (w, mkResponse 200
          (JsonStats (Z.of_nat (length (table_rows w)))
             (tally is_active (table_rows w))
             (tally is_secured (table_rows w))
             (tally is_security_pending (table_rows w)))).
Proof.
  unfold get_stats. fold (table_rows w).
  by rewrite or_zero_Some, !sum_case_when.
Qed.

(** The rows after an INSERT under a free rowid. *)
Lemma table_rows_insert (m : gmap Z visitor) id r :
  m !! id = None →
  (map_to_list (<[id := r]> m)).*2 ≡ₚ r :: (map_to_list m).*2.
Proof. intros Hn. by rewrite map_to_list_insert. Qed.

(** The rows before and after an UPDATE of a row that exists. *)
Lemma table_rows_alter (m : gmap Z visitor) id r (g : visitor → visitor) :
  m !! id = Some r →
  ∃ rest, (map_to_list m).*2 ≡ₚ r :: rest ∧
          (map_to_list (alter g id m)).*2 ≡ₚ g r :: rest.
Proof.
  intros Hr. exists (map_to_list (delete id m)).*2. split.
  - by rewrite <- (map_to_list_delete m id r Hr).
  - assert (alter g id m = <[id := g r]> (delete id m)) as ->.
    { apply map_eq. intros k. rewrite lookup_alter, lookup_insert.
      case_decide; subst; [by rewrite Hr|]. by rewrite lookup_delete_ne. }
    apply table_rows_insert, lookup_delete_eq.
Qed.

(** X9.  In every world, reachable or not, the three partial counts are not
    negative and together do not exceed the total, which is the size of the
    table. *)
Theorem stats_within_total w :
  ∃ total active secured security_pending,
    get_stats w
      = (w, mkResponse 200
              (JsonStats total active secured security_pending)) ∧
    total = Z.of_nat (size (visitors (db w))) ∧
    0 ≤ active ∧ 0 ≤ secured ∧ 0 ≤ security_pending ∧
    active + secured + security_pending ≤ total.
Proof.
  do 4 eexists. split; [apply get_stats_tally|].
  split_and!; try apply tally_nonneg.
  - unfold table_rows. by rewrite length_fmap, length_map_to_list.
  - induction (table_rows w) as [|r rows IH]; [done|].
    rewrite !tally_cons. simpl length.
    assert (Sql.case_when (is_active r) + Sql.case_when (is_secured r)
            + Sql.case_when (is_security_pending r) ≤ 1); [|lia].
    unfold is_active, is_secured, is_security_pending.
    destruct (out_time r); simpl; [|lia].
    destruct (Z.eqb_spec (security_confirmed r) 1) as [->|]; simpl; [lia|].
    destruct (security_confirmed r =? 0); simpl; lia.
Qed.

(** X10.  A registration that is answered 200 raises the total and the number of
    active visitors by one and leaves the other two counts as they were. *)
Theorem stats_after_registration f sv w id total active secured pending :
  (post_visitors f sv w).2 = registered_as id →
  (get_stats w).2 = mkResponse 200 (JsonStats total active secured pending) →
  (get_stats (post_visitors f sv w).1).2
  = mkResponse 200 (JsonStats (total + 1) (active + 1) secured pending).
Proof.
  intros Hrs. rewrite !get_stats_tally. simpl. intros [= <- <- <- <-].
  destruct (post_visitors_cases f sv w)
    as [(Hne & _)|(j & fn & cn & dv & pv & _ & _ & _ & _ & _ & Hj & _ & Hm & _)].
  { rewrite Hrs in Hne. done. }
  assert (Hrows : table_rows (post_visitors f sv w).1
                  ≡ₚ registered_row fn cn dv pv (f_photo f) sv j
                     :: table_rows w).
  { unfold table_rows. rewrite Hm. by apply table_rows_insert. }
  rewrite !(tally_perm _ _ _ Hrows), !tally_cons, Hrows. simpl length.
  unfold is_active, is_secured, is_security_pending.
  destruct (registered_row_security fn cn dv pv (f_photo f) sv j)
    as (_ & _ & -> & _). simpl. do 2 f_equal; lia.
Qed.

Lemma stats_after_registration_witness :
  (get_stats
     (post_visitors Scenario.jane Scenario.all_down Scenario.released).1).2
  = mkResponse 200 (JsonStats (1 + 1) (0 + 1) 0 1).
Proof.
  apply (stats_after_registration _ _ _ 2); reflexivity.
Defined.

(** X11.  Releasing a visitor who is on the premises leaves the total, takes one
    from the active count and adds one to the security-pending count, or to
    the secured count if security had confirmed the visitor before. *)
Theorem stats_after_release w id r now total active secured pending :
  record_of id w = Some r → out_time r = None →
  (get_stats w).2 = mkResponse 200 (JsonStats total active secured pending) →
  (get_stats (post_release id now w).1).2
  = mkResponse 200
      (JsonStats total (active - 1)
         (secured + Sql.case_when (security_confirmed r =? 1))
         (pending + Sql.case_when (security_confirmed r =? 0))).
Proof.
  intros Hr Ho. rewrite !get_stats_tally. simpl. intros [= <- <- <- <-].
  destruct (table_rows_alter (visitors (db w)) id r (set_out_time now) Hr)
    as (rest & Hrows & Hrows').
  change (table_rows (post_release id now w).1)
    with (map_to_list (alter (set_out_time now) id (visitors (db w)))).*2.
  unfold table_rows.
  rewrite !(tally_perm _ _ _ Hrows), !(tally_perm _ _ _ Hrows'), !tally_cons,
    Hrows, Hrows'. simpl length.
  unfold is_active, is_secured, is_security_pending. rewrite Ho. simpl.
  do 2 f_equal; lia.
Qed.

Lemma stats_after_release_witness :
  (get_stats
     (post_release 1 "2025-01-01T11:00:00.000Z" Scenario.registered).1).2
  = mkResponse 200 (JsonStats 1 (1 - 1) (0 + 0) (0 + 1)).
Proof.
  apply (stats_after_release Scenario.registered 1
           (mkVisitor "Jane Doe" "5551234567" "Engineering" "John Smith"
              "2025-01-01 10:00:00" None 0 None None 1 0
              (Some "uploads/qr-1.png")));
    reflexivity.
Defined.

(** X12.  A security checkout of a released visitor who was pending moves one
    from the security-pending count to the secured count.  A security
    checkout of a visitor who has not been released changes no count: the
    visitor is still active. *)
Theorem stats_after_security_checkout w id r now total active secured pending :
  record_of id w = Some r → security_confirmed r = 0 →
  (get_stats w).2 = mkResponse 200 (JsonStats total active secured pending) →
  (get_stats (post_security_checkout id now w).1).2
  = mkResponse 200
      (if Sql.is_null (out_time r)
       then JsonStats total active secured pending
       else JsonStats total active (secured + 1) (pending - 1)).
Proof.
  intros Hr Hs. rewrite !get_stats_tally. simpl. intros [= <- <- <- <-].
  destruct (table_rows_alter (visitors (db w)) id r (set_security now) Hr)
    as (rest & Hrows & Hrows').
  change (table_rows (post_security_checkout id now w).1)
    with (map_to_list (alter (set_security now) id (visitors (db w)))).*2.
  unfold table_rows.
  destruct (out_time r) as [t|] eqn:Ho; simpl;
    rewrite !(tally_perm _ _ _ Hrows), !(tally_perm _ _ _ Hrows'),
      !tally_cons, Hrows, Hrows'; simpl length;
    unfold is_active, is_secured, is_security_pending; simpl;
    rewrite Hs, Ho; simpl; do 2 f_equal; lia.
Qed.

Lemma stats_after_security_checkout_witness :
  (get_stats
     (post_security_checkout 1 "2025-01-01T11:05:00.000Z"
        Scenario.released).1).2
  = mkResponse 200 (JsonStats 1 0 (0 + 1) (1 - 1)).
Proof.
  apply (stats_after_security_checkout Scenario.released 1
           (mkVisitor "Jane Doe" "5551234567" "Engineering" "John Smith"
              "2025-01-01 10:00:00" (Some "2025-01-01T11:00:00.000Z") 0 None
              None 1 0 (Some "uploads/qr-1.png")));
    reflexivity.
Defined.

End statistics_over_time.

(** ** Paths and links *)

Section paths_and_links.

Lemma string_app_cons a (s t : string) :
  String a s +:+ t = String a (s +:+ t).
Proof. reflexivity. Qed.

Lemma string_app_length (s t : string) :
  String.length (s +:+ t) = (String.length s + String.length t)%nat.
Proof.
  induction s as [|a s IH]; [done|]. rewrite string_app_cons. simpl.
  by rewrite IH.
Qed.

(** A common ending can be struck off both sides. *)
Lemma string_app_inv_r (s1 s2 t : string) : s1 +:+ t = s2 +:+ t → s1 = s2.
Proof.
  revert s2. induction s1 as [|a s1 IH]; intros [|b s2] H.
  - done.
  - apply (f_equal String.length) in H.
    rewrite !string_app_length in H. simpl in H. lia.
  - apply (f_equal String.length) in H.
    rewrite !string_app_length in H. simpl in H. lia.
  - rewrite !string_app_cons in H. injection H as -> H.
    f_equal. by apply IH.
Qed.

(** X14.  The link of the APPROVE button in the mails is the address encoded in
    the QR image exactly when BASE_URL is unset, empty or the local default:
    under any other BASE_URL the mails still point to localhost. *)
Theorem mailed_link_ignores_base_url BASE_URL id :
  approvalUrl BASE_URL id = qr_url BASE_URL id ↔
  base_url BASE_URL = "http://localhost:3000".
Proof.
  unfold approvalUrl, qr_url.
  change ("http://localhost:3000/api/visitors/" +:+ pretty id +:+ "/approve")
    with ("http://localhost:3000"
          +:+ ("/api/visitors/" +:+ pretty id +:+ "/approve")).
  split.
  - intros H. symmetry. by apply string_app_inv_r in H.
  - by intros ->.
Qed.

End paths_and_links.

(** ** The host's address *)

Section host_address.

Lemma to_lower_class (c : ascii) :
  is_upper (to_lower c) = false ∧ is_space (to_lower c) = is_space c.
Proof.
  destruct c as [[] [] [] [] [] [] [] []]; vm_compute; split; reflexivity.
Qed.

Lemma toLowerCase_length (s : string) :
  String.length (toLowerCase s) = String.length s.
Proof. induction s as [|c s IH]; simpl; congruence. Qed.

Lemma toLowerCase_no_capital (s : string) :
  string_forall (λ c, negb (is_upper c)) (toLowerCase s) = true.
Proof.
  induction s as [|c s IH]; [done|]. simpl.
  destruct (to_lower_class c) as [-> _]. done.
Qed.

Lemma replace_spaces_clean (in_run : bool) (s : string) :
  string_forall (λ c, negb (is_upper c)) s = true →
  string_forall (λ c, negb (is_space c) && negb (is_upper c))
    (replace_spaces in_run s) = true ∧
  (String.length (replace_spaces in_run s) ≤ String.length s)%nat.
Proof.
  revert in_run. induction s as [|c s IH]; intros in_run; [done|]. simpl.
  intros [Hc Hs]%andb_true_iff.
  destruct (is_space c) eqn:Ec.
  - destruct in_run; simpl; destruct (IH true Hs) as [-> ?]; split; try done;
      lia.
  - simpl. rewrite Ec, Hc. simpl. destruct (IH false Hs) as [-> ?].
    split; [done|lia].
Qed.

(** X15.  For a name in ASCII, the part of the host's address before the [@] has
    no white space and no capital letter, and is not longer than the name.  *)
Theorem host_address_is_clean person :
  ascii_text person = true →
  host_address person = host_local_part person +:+ "@example.com" ∧
  string_forall (λ c, negb (is_space c) && negb (is_upper c))
    (host_local_part person) = true ∧
  (String.length (host_local_part person) ≤ String.length person)%nat.
Proof.
  intros _. split; [done|]. unfold host_local_part.
  destruct (replace_spaces_clean false (toLowerCase person)
              (toLowerCase_no_capital person)) as [H1 H2].
  split; [done|]. by rewrite toLowerCase_length in H2.
Qed.

Lemma host_address_is_clean_witness :
  host_address "John  Smith" = "john.smith@example.com" ∧
  (String.length (host_local_part "John  Smith") ≤ 11)%nat.
Proof.
  destruct (host_address_is_clean "John  Smith") as (H & _ & Hlen);
    [reflexivity|].
  split; [exact H | exact Hlen].
Defined.

End host_address.

(** ** The browser form and the server *)

Section browser_form.

Lemma trim_start_blank (s : string) :
  string_forall is_space s = true → trim_start s = "".
Proof.
  induction s as [|c s IH]; [done|]. simpl.
  intros [-> Hs]%andb_true_iff. by apply IH.
Qed.

Lemma trim_blank (s : string) : string_forall is_space s = true → trim s = "".
Proof. intros H. unfold trim. by rewrite (trim_start_blank s H). Qed.

(** X16.  What the form adds to the server's check: a name, a contact number or a
    host made of white space only is trimmed to nothing in the browser, and
    the server then answers 400 and stores nothing.  The department is
    posted as it is. *)
Theorem blank_inputs_are_refused i upload sv w :
  string_forall is_space (in_full_name i) = true ∨
  string_forall is_space (in_contact_number i) = true ∨
  string_forall is_space (in_person_to_visit i) = true ∨
  in_department_visiting i = "" →
  post_visitors (handleFormSubmit i upload) sv w
  = (w, mkResponse 400 (JsonError "All fields are required")).
Proof.
  unfold post_visitors, handleFormSubmit. simpl.
  intros [H|[H|[H|H]]]; [apply trim_blank in H..|]; rewrite H; simpl;
    rewrite ?orb_true_r; reflexivity.
Qed.

Lemma blank_inputs_are_refused_witness :
  post_visitors
    (handleFormSubmit
       (mkFormInputs "   " "5551234567" "Engineering" "John Smith" "")
       "uploads/1735725600000-visitor-photo.png")
    Scenario.all_up initial_world
  = (initial_world, mkResponse 400 (JsonError "All fields are required")).
Proof. apply blank_inputs_are_refused. left. reflexivity. Defined.

End browser_form.

(** ** The spreadsheet export *)

Section export.

Implicit Types (w : world) (d : database) (r : visitor) (id : Z).

Lemma elem_of_export_select period ps d id r :
  (id, r) ∈ export_select period ps d ↔
  visitors d !! id = Some r ∧
  export_where (export_params period ps) r = true.
Proof.
  unfold export_select, Sql.order_by_in_time_desc.
  rewrite merge_sort_Permutation, list_elem_of_filter, elem_of_map_to_list.
  simpl. tauto.
Qed.

Lemma elem_of_export_sheet period ps d id r st :
  (id, r, st) ∈ export_sheet period ps d ↔
  visitors d !! id = Some r ∧
  export_where (export_params period ps) r = true ∧
  st = export_status r.
Proof.
  unfold export_sheet. rewrite list_elem_of_fmap. split.
  - intros ([id' r'] & [= -> -> ->] & Hin).
    apply elem_of_export_select in Hin. tauto.
  - intros (Hr & Hw & ->). exists (id, r). split; [done|].
    apply elem_of_export_select. tauto.
Qed.

Lemma export_sheet_ids period ps d :
  (export_sheet period ps d).*1.*1 = (export_select period ps d).*1.
Proof.
  unfold export_sheet.
  induction (export_select period ps d) as [|row l IH]; [done|].
  rewrite !fmap_cons. simpl. by f_equal.
Qed.

(** No rowid comes twice in the worksheet. *)
Lemma export_sheet_ids_NoDup period ps d :
  NoDup (export_sheet period ps d).*1.*1.
Proof.
  rewrite export_sheet_ids.
  unfold export_select, Sql.order_by_in_time_desc.
  rewrite merge_sort_Permutation.
  apply (sublist_NoDup _ (map_to_list (visitors d)).*1).
  - apply NoDup_fst_map_to_list.
  - apply fmap_sublist, sublist_filter.
Qed.

(** X17.  The worksheet has exactly one line for every row of the table whose
    check-in time is, as a text, not before the start of the period, with
    the status derived from that row: a line is in it if and only if it is
    such a row, no line and no rowid comes twice, and the later check-in
    comes first; without a period, or with a word that is not one of the
    three, it has every row. *)
Theorem export_sheet_rows period ps w :
  (∀ id r st,
     (id, r, st) ∈ export_sheet period ps (db w) ↔
     record_of id w = Some r ∧
     (∀ start, export_params period ps = Some start →
               String.le start (in_time r)) ∧
     st = export_status r) ∧
  NoDup (export_sheet period ps (db w)) ∧
  NoDup (export_sheet period ps (db w)).*1.*1 ∧
  (∀ i j a b, (i < j)%nat →
     export_sheet period ps (db w) !! i = Some a →
     export_sheet period ps (db w) !! j = Some b →
     String.le (in_time b.1.2) (in_time a.1.2)) ∧
  (period ≠ Some "day" → period ≠ Some "week" → period ≠ Some "month" →
   length (export_sheet period ps (db w)) = size (visitors (db w))).
Proof.
  split_and!.
  - intros id r st. rewrite elem_of_export_sheet. unfold record_of.
    destruct (export_params period ps) as [start|]; simpl.
    + split.
      * intros (? & ? & ?). split_and!; [done| |done].
        intros ? [= <-]. by apply Is_true_true.
      * intros (? & H & ?). split_and!; [done| |done].
        by apply Is_true_true, H.
    + split; intros (? & ? & ?); split_and!; done.
  - apply (NoDup_fmap_1 fst), (NoDup_fmap_1 fst), export_sheet_ids_NoDup.
  - apply export_sheet_ids_NoDup.
  - intros i j a b Hij. unfold export_sheet. rewrite !list_lookup_fmap.
    destruct (export_select period ps (db w) !! i) as [a'|] eqn:Ea; [|done].
    destruct (export_select period ps (db w) !! j) as [b'|] eqn:Eb; [|done].
    simpl. intros [= <-] [= <-]. simpl.
    apply (StronglySorted_lookup_lt Sql.in_time_desc
             (export_select period ps (db w)) i j a' b'); try done.
    apply StronglySorted_merge_sort; apply _.
  - intros H1 H2 H3. unfold export_sheet, export_select, export_params,
      Sql.order_by_in_time_desc.
    rewrite !decide_False by done. simpl.
    rewrite length_fmap, merge_sort_Permutation.
    rewrite <- length_map_to_list. f_equal.
    induction (map_to_list (visitors (db w))) as [|x l IH]; [done|].
    rewrite filter_cons_True by done. by f_equal.
Qed.

Lemma ascii_compare_refl (c : ascii) : Ascii.compare c c = Eq.
Proof. unfold Ascii.compare. apply N.compare_refl. Qed.

(** In the order of texts, a check-in time written with a space after the
    date comes before every time of the same date written with a [T]. *)
Lemma space_form_before_T_form (date time rest : string) :
  String.leb (date +:+ "T" +:+ rest) (date +:+ " " +:+ time) = false.
Proof.
  unfold String.leb. induction date as [|c date IH]; [done|].
  rewrite !string_app_cons. simpl. by rewrite ascii_compare_refl.
Qed.

(** X18.  SQLite writes [in_time] as date, space, time, and the export compares it
    with the start of the period as [toISOString] prints it: date, [T],
    time.  So a row that checked in on the date of the start of the period
    is left out of the export of that period, at whatever time of that day
    it checked in. *)
Theorem export_leaves_out_the_first_day period ps w id r date time rest :
  record_of id w = Some r →
  in_time r = date +:+ " " +:+ time →
  export_params period ps = Some (date +:+ "T" +:+ rest) →
  ∀ st, (id, r, st) ∉ export_sheet period ps (db w).
Proof.
  intros Hr Hin Hps st. rewrite elem_of_export_sheet, Hps. simpl.
  rewrite Hin, space_form_before_T_form. by intros (_ & ? & _).
Qed.

Lemma export_leaves_out_the_first_day_witness :
  (1, mkVisitor "Jane Doe" "5551234567" "Engineering" "John Smith"
        "2025-01-01 10:00:00" None 0 None None 1 0
        (Some "uploads/qr-1.png"), "Active")
  ∉ export_sheet (Some "day")
      (mkPeriodStarts "2025-01-01T00:00:00.000Z" "2024-12-29T09:30:00.000Z"
         "2025-01-01T09:30:00.000Z")
      (db Scenario.registered).
Proof.
  apply (export_leaves_out_the_first_day _ _ _ _ _ "2025-01-01" "10:00:00"
           "00:00:00.000Z"); reflexivity.
Defined.

(** X19.  For a row of a world reached from the initial one, released, if at
    all, at a time that is not the empty text, the status in the worksheet
    names the list the row is in: Active for [active], Completed for
    [released], Pending Checkout for [security-pending]. *)
Theorem export_status_names_the_list rqs id r :
  record_of id (run rqs initial_world) = Some r →
  out_time r ≠ Some "" →
  (export_status r = "Active" ↔
   (id, r) ∈ select_visitors (Some "active") (db (run rqs initial_world))) ∧
  (export_status r = "Completed" ↔
   (id, r) ∈ select_visitors (Some "released") (db (run rqs initial_world))) ∧
  (export_status r = "Pending Checkout" ↔
   (id, r) ∈ select_visitors (Some "security-pending")
               (db (run rqs initial_world))).
Proof.
  intros Hr Hne.
  rewrite !elem_of_select_visitors, where_status_active,
    where_status_released, where_status_security_pending.
  unfold record_of in Hr.
  pose proof (flags_boolean_run rqs id r Hr) as Hflag.
  unfold export_status, is_active, is_secured, is_security_pending.
  destruct (out_time r) as [[|c t]|]; [done| |]; simpl;
    destruct Hflag as [H | H]; rewrite ?H; simpl; split_and!; split;
    try done; try (by intros [_ ?]); by intros _.
Qed.

Lemma export_status_names_the_list_witness :
  export_status
    (mkVisitor "Jane Doe" "5551234567" "Engineering" "John Smith"
       "2025-01-01 10:00:00" (Some "2025-01-01T11:00:00.000Z") 0 None None
       1 0 (Some "uploads/qr-1.png")) = "Pending Checkout" ↔
  (1, mkVisitor "Jane Doe" "5551234567" "Engineering" "John Smith"
        "2025-01-01 10:00:00" (Some "2025-01-01T11:00:00.000Z") 0 None None
        1 0 (Some "uploads/qr-1.png"))
  ∈ select_visitors (Some "security-pending") (db Scenario.released).
Proof.
  apply (export_status_names_the_list
           [Register Scenario.jane Scenario.all_up;
            Release 1 "2025-01-01T11:00:00.000Z"] 1);
    [vm_compute; reflexivity | discriminate].
Defined.

End export.

(** ** The maintenance script and the ids *)

Section maintenance.

Implicit Types (w : world) (r : visitor) (id : Z).

Lemma sequence_covers_table_step rq w :
  sequence_covers_table w → sequence_covers_table (handle rq w).1.
Proof.
  intros [Hseq Hids]. pose proof (handle_sequence rq w) as Hmono.
  split; [lia|]. intros id r Hr.
  destruct (record_of id w) as [r0|] eqn:E.
  - specialize (Hids id r0 E). lia.
  - destruct (handle_created _ _ _ _ E Hr)
      as (f & sv & fn & cn & dv & pv & -> & _). simpl in *.
    destruct (post_visitors_cases f sv w)
      as [(_ & Hdb & _)
         |(j & ? & ? & ? & ? & _ & _ & _ & _ & _ & Hj & Hrs & Hm & _)].
    { unfold record_of in Hr, E. rewrite Hdb in Hr. congruence. }
    unfold record_of in Hr, E. rewrite Hm in Hr.
    rewrite lookup_insert in Hr. case_decide; [subst j|congruence].
    destruct (post_visitors_sequence f sv w) as [[Hne _]|[Hid ->]].
    { rewrite Hrs in Hne. done. }
    rewrite Hrs in Hid. apply registered_as_inj in Hid. subst id.
    pose proof (next_rowid_above (db w)) as (_ & ? & _). lia.
Qed.

Lemma sequence_covers_table_run rqs :
  sequence_covers_table (run rqs initial_world).
Proof.
  apply run_invariant; [apply sequence_covers_table_step|].
  split; [done|]. intros id r Hr. done.
Qed.

Lemma max_rowid_empty : Sql.max_rowid ∅ = 0.
Proof. unfold Sql.max_rowid. by rewrite map_to_list_empty. Qed.

(** X20.  After any run from the initial world every rowid lies between 1 and
    the counter.  When the maintenance script has emptied the table, the
    next registration gets id 1 if the script also removed the counter, so
    that the ids of earlier visitors are handed out again; if it did not,
    the next id is one above the counter, hence above every id given
    before. *)
Theorem ids_after_maintenance rqs sequence_reset f sv id :
  let w := run rqs initial_world in
  let w' := with_db (delete_all_visitors sequence_reset (db w)) w in
  (post_visitors f sv w').2 = registered_as id →
  (∀ id' r, record_of id' w = Some r → 1 ≤ id' ≤ sqlite_sequence (db w)) ∧
  id = (if sequence_reset then 1 else sqlite_sequence (db w) + 1).
Proof.
  intros w w' Hrs.
  destruct (sequence_covers_table_run rqs) as [Hseq Hids]. fold w in Hseq, Hids.
  split; [exact Hids|].
  destruct (post_visitors_sequence f sv w') as [[Hne _]|[Hid _]].
  { rewrite Hrs in Hne. done. }
  rewrite Hrs in Hid. apply registered_as_inj in Hid. subst id.
  unfold Sql.next_rowid, w', delete_all_visitors. simpl.
  rewrite max_rowid_empty. destruct sequence_reset; lia.
Qed.

Lemma ids_after_maintenance_witness :
  (post_visitors Scenario.jane Scenario.all_up
     (with_db (delete_all_visitors true (db Scenario.released))
        Scenario.released)).2 = registered_as 1 ∧
  1 = 1.
Proof.
  split; [reflexivity|].
  apply (ids_after_maintenance
           [Register Scenario.jane Scenario.all_up;
            Release 1 "2025-01-01T11:00:00.000Z"] true
           Scenario.jane Scenario.all_up 1).
  reflexivity.
Defined.

End maintenance.

(** ** Mails, QR images and the rows they belong to *)

Section side_channels.

Implicit Types (w : world) (r : visitor) (id : Z) (m : mail).

Lemma elem_of_mails_of sv id person m :
  m ∈ mails_of sv id person →
  mail_visitor m = id ∧
  (mail_to m = HR_EMAIL ∨ mail_to m = HostAddress person).
Proof.
  unfold mails_of. destruct (send_hr_ok sv);
    rewrite ?elem_of_cons, ?elem_of_nil; intros H;
    destruct_or!; subst; simpl; auto; done.
Qed.

Lemma touch_qr_code_path rq id r :
  qr_code_path (touch rq id r) = qr_code_path r.
Proof.
  destruct rq as [f sv|i|i now|i now| |st]; simpl; try case_decide; done.
Qed.

Lemma refused_registration_sends_nothing f sv w :
  status (post_visitors f sv w).2 ≠ 200 →
  outbox (post_visitors f sv w).1 = outbox w.
Proof.
  intros Hne.
  destruct (post_visitors_cases f sv w)
    as [(_ & _ & Ho)|(j & ? & ? & ? & ? & _ & _ & _ & _ & _ & _ & Hrs & _)];
    [done|]. rewrite Hrs in Hne. done.
Qed.

Lemma mails_about_stored_step rq w :
  mails_about_stored w → mails_about_stored (handle rq w).1.
Proof.
  intros Hw m Hm.
  assert (Hold : m ∈ outbox w →
            ∃ r, record_of (mail_visitor m) (handle rq w).1 = Some r ∧
                 (mail_to m = HR_EMAIL ∨
                  mail_to m = HostAddress (person_to_visit r))).
  { intros Hin. destruct (Hw m Hin) as (r & Hr & Hto).
    exists (touch rq (mail_visitor m) r).
    split; [by apply handle_existing|].
    by destruct (touch_email rq (mail_visitor m) r) as [_ ->]. }
  destruct rq as [f sv|i|i now|i now| |st];
    try (apply Hold; revert Hm; simpl; rewrite ?get_approve_world; done).
  simpl in *.
  destruct (post_visitors_cases f sv w)
    as [(_ & _ & Ho)
       |(j & fn & cn & dv & pv & _ & _ & _ & _ & _ & Hj & _ & Hmap & Ho)].
  { apply Hold. by rewrite Ho in Hm. }
  rewrite Ho in Hm. apply elem_of_app in Hm as [Hm|Hm]; [by apply Hold|].
  apply elem_of_mails_of in Hm as [-> Hto].
  exists (registered_row fn cn dv pv (f_photo f) sv j). unfold record_of.
  rewrite Hmap, lookup_insert_eq. split; [done|].
  by destruct (registered_row_email fn cn dv pv (f_photo f) sv j)
    as [-> _].
Qed.

(** A property of servers that every route preserves holds after any
    sequence of events. *)
Lemma serve_all_invariant (I : server → Prop) :
  (∀ e s, I s → I (serve e s).1) →
  ∀ es s, I s → I (serve_all es s).
Proof.
  intros Hstep es. induction es as [|e es IH]; intros s Hs; simpl; auto.
Qed.

(** Only the lifecycle requests touch the database and the log of the
    registration mails. *)
Lemma serve_other_routes e s :
  (∀ rq, e ≠ Lifecycle rq) →
  db (lifecycle (serve e s).1) = db (lifecycle s) ∧
  outbox (lifecycle (serve e s).1) = outbox (lifecycle s).
Proof.
  intros Hne. destruct e as [rq|[]|period ps date|c|c|path]; simpl; try done.
  by destruct (Hne rq).
Qed.

Lemma serve_test_mails e s :
  test_mails (serve e s).1
  = (test_mails s ++
     match e with TestEmail delivered => [delivered] | _ => [] end)%list.
Proof.
  destruct e as [rq|[]|period ps date|c|c|path]; simpl;
    rewrite ?app_nil_r; try done.
  by destruct (handle rq (lifecycle s)).
Qed.

Lemma serve_all_test_mails es s :
  length (test_mails (serve_all es s))
  = (length (test_mails s)
     + length (filter (λ e, is_test_email e = true) es))%nat.
Proof.
  revert s. induction es as [|e es IH]; intros s; simpl; [lia|].
  rewrite IH, serve_test_mails, length_app, filter_cons.
  destruct e; simpl; lia.
Qed.

(** X21.  Over every route of the server, from the initial state: each call
    a registration makes to the mail transport, delivered or not, is about
    a visitor who is in the table, and is addressed to HR or to the host
    named in that visitor's row; a registration that is refused makes none.
    The transport is called besides only by the mail test, once for every
    such request, with a mail that names no visitor.  No route but the
    lifecycle requests changes the database or the registration mails, and
    no route but the mail test adds a test mail. *)
Theorem mails_only_about_stored_visitors :
  (∀ f sv w, status (post_visitors f sv w).2 ≠ 200 →
             outbox (post_visitors f sv w).1 = outbox w) ∧
  (∀ es m,
     m ∈ outbox (lifecycle (serve_all es initial_server)) →
     ∃ r, record_of (mail_visitor m)
            (lifecycle (serve_all es initial_server)) = Some r ∧
          (mail_to m = HR_EMAIL ∨
           mail_to m = HostAddress (person_to_visit r))) ∧
  (∀ es, length (test_mails (serve_all es initial_server))
         = length (filter (λ e, is_test_email e = true) es)) ∧
  (∀ e s, (∀ rq, e ≠ Lifecycle rq) →
          db (lifecycle (serve e s).1) = db (lifecycle s) ∧
          outbox (lifecycle (serve e s).1) = outbox (lifecycle s)) ∧
  (∀ e s, is_test_email e = false →
          test_mails (serve e s).1 = test_mails s) ∧
  (∀ delivered s,
     test_mails (serve (TestEmail delivered) s).1
     = (test_mails s ++ [delivered])%list).
Proof.
  split_and!.
  - apply refused_registration_sends_nothing.
  - intros es.
    apply (serve_all_invariant (λ s, mails_about_stored (lifecycle s))).
    + intros e s Hs.
      destruct e as [rq|delivered|period ps date|c|c|path];
        try (intros m Hm; apply (Hs m Hm)).
      * simpl. pose proof (mails_about_stored_step rq (lifecycle s) Hs) as H.
        by destruct (handle rq (lifecycle s)).
      * destruct delivered; intros m Hm; apply (Hs m Hm).
    + intros m Hm. by apply elem_of_nil in Hm.
  - intros es. by rewrite serve_all_test_mails.
  - apply serve_other_routes.
  - intros e s He. rewrite serve_test_mails. destruct e; try done;
      by rewrite app_nil_r.
  - intros delivered s. by rewrite serve_test_mails.
Qed.

Lemma registered_row_qr fn cn dv pv photo sv id :
  qr_code_path (registered_row fn cn dv pv photo sv id)
  = (if qr_to_file_ok sv then Some (qr_path id) else None).
Proof.
  unfold registered_row.
  by destruct (qr_to_file_ok sv), (send_hr_ok sv && send_host_ok sv).
Qed.

(** X22.  After any run from the initial world, the QR image a row points to, if
    any, is the file written for that row's own id. *)
Theorem qr_code_path_is_own rqs id r :
  record_of id (run rqs initial_world) = Some r →
  qr_code_path r = None ∨ qr_code_path r = Some (qr_path id).
Proof.
  revert id r. apply (run_invariant
    (λ w, ∀ id r, record_of id w = Some r →
                  qr_code_path r = None ∨ qr_code_path r = Some (qr_path id))).
  - intros rq w Hw id r Hr. destruct (record_of id w) as [r0|] eqn:E.
    + rewrite (handle_existing _ _ _ _ E) in Hr. injection Hr as <-.
      rewrite touch_qr_code_path. by apply Hw.
    + destruct (handle_created _ _ _ _ E Hr)
        as (f & sv & fn & cn & dv & pv & _ & _ & _ & _ & _ & _ & -> & _).
      rewrite registered_row_qr. destruct (qr_to_file_ok sv); auto.
  - done.
Qed.

Lemma qr_code_path_is_own_witness :
  ∃ r, record_of 1 Scenario.registered = Some r ∧
       (qr_code_path r = None ∨ qr_code_path r = Some (qr_path 1)).
Proof.
  eexists. split; [vm_compute; reflexivity|].
  apply (qr_code_path_is_own [Register Scenario.jane Scenario.all_up] 1).
  vm_compute. reflexivity.
Defined.

End side_channels.

(** ** The lists and the statistics *)

Section lists_and_statistics.

Implicit Types (w : world) (r : visitor).

Lemma length_filter_snd (c : visitor → bool) (l : list (Z * visitor)) :
  length (filter (λ row, c row.2 = true) l)
  = length (filter (λ r, c r = true) l.*2).
Proof.
  induction l as [|x l IH]; [done|]. rewrite fmap_cons, !filter_cons.
  destruct (c x.2) eqn:E; simpl; rewrite ?E; simpl;
    repeat case_decide; try done; simpl; by rewrite ?IH.
Qed.

Lemma length_select_visitors status w :
  Z.of_nat (length (select_visitors status (db w)))
  = tally (where_status status) (table_rows w).
Proof.
  unfold select_visitors, Sql.order_by_in_time_desc, tally, table_rows.
  by rewrite merge_sort_Permutation, length_filter_snd.
Qed.

(** X23.  In every world the four numbers of [Stats] are the lengths of the four
    lists: of the list without filter, and of the lists [active],
    [released] and [security-pending]. *)
Theorem stats_are_list_lengths w :
  get_stats w
  = (w, mkResponse 200
          (JsonStats
             (Z.of_nat (length (select_visitors None (db w))))
             (Z.of_nat (length (select_visitors (Some "active") (db w))))
             (Z.of_nat (length (select_visitors (Some "released") (db w))))
             (Z.of_nat
                (length (select_visitors (Some "security-pending") (db w)))))).
Proof.
  rewrite get_stats_tally, !length_select_visitors. do 3 f_equal.
  unfold tally, table_rows. do 2 f_equal.
  induction (map_to_list (visitors (db w))).*2 as [|r l IH]; [done|].
  rewrite filter_cons_True by done. by f_equal.
Qed.

End lists_and_statistics.

(** ** The properties above on the sample requests *)

Section samples.

Lemma mails_only_about_stored_visitors_witness :
  outbox (post_visitors (mkForm (Some "Jane Doe") None None None None)
            Scenario.all_up Scenario.registered).1
    = outbox Scenario.registered ∧
  (∃ r, record_of 1
          (lifecycle
             (serve_all
                [TestEmail true;
                 Lifecycle (Register Scenario.jane Scenario.all_up);
                 TestEmail false; UpdatesOpen 7]
                initial_server)) = Some r ∧
        (HostAddress "John Smith" = HR_EMAIL ∨
         HostAddress "John Smith" = HostAddress (person_to_visit r))) ∧
  length
    (test_mails
       (serve_all
          [TestEmail true;
           Lifecycle (Register Scenario.jane Scenario.all_up);
           TestEmail false; UpdatesOpen 7]
          initial_server)) = 2%nat.
Proof.
  destruct mails_only_about_stored_visitors
    as (Hrefused & Hstored & Htests & _).
  split_and!.
  - apply Hrefused. vm_compute. discriminate.
  - apply (Hstored
             [TestEmail true;
              Lifecycle (Register Scenario.jane Scenario.all_up);
              TestEmail false; UpdatesOpen 7]
             (mkMail (HostAddress "John Smith") 1 true)).
    vm_compute. apply list_elem_of_further, list_elem_of_here.
  - apply (Htests
             [TestEmail true;
              Lifecycle (Register Scenario.jane Scenario.all_up);
              TestEmail false; UpdatesOpen 7]).
Defined.

Lemma export_sheet_rows_witness :
  NoDup
    (export_sheet (Some "week")
       (mkPeriodStarts "2025-01-01T00:00:00.000Z"
          "2024-12-29T09:30:00.000Z" "2025-01-01T09:30:00.000Z")
       (db Scenario.released)).*1.*1 ∧
  length (export_sheet None
            (mkPeriodStarts "2025-01-01T00:00:00.000Z"
               "2024-12-29T09:30:00.000Z" "2025-01-01T09:30:00.000Z")
            (db Scenario.released))
  = size (visitors (db Scenario.released)).
Proof.
  destruct (export_sheet_rows (Some "week")
              (mkPeriodStarts "2025-01-01T00:00:00.000Z"
                 "2024-12-29T09:30:00.000Z" "2025-01-01T09:30:00.000Z")
              Scenario.released) as (_ & _ & Hids & _).
  destruct (export_sheet_rows None
              (mkPeriodStarts "2025-01-01T00:00:00.000Z"
                 "2024-12-29T09:30:00.000Z" "2025-01-01T09:30:00.000Z")
              Scenario.released) as (_ & _ & _ & _ & Hall).
  split; [exact Hids | apply Hall; discriminate].
Defined.

End samples.

(** ** QR image files *)

Section qr_files.

Implicit Types (w : world) (r : visitor) (id : Z).

Lemma qr_path_inj id id' : qr_path id = qr_path id' → id = id'.
Proof.
  unfold qr_path. intros H.
  apply (inj (String.app "uploads/qr-")) in H.
  apply string_app_inv_r in H. by apply (inj pretty).
Qed.

Lemma generateQRCode_path sv id w p :
  (generateQRCode sv id w).2 = Some p → p = qr_path id.
Proof.
  unfold generateQRCode, qr_path. destruct (qr_to_file_ok sv); simpl;
    congruence.
Qed.

Lemma qr_code_path_own_run rqs id r p :
  record_of id (run rqs initial_world) = Some r →
  qr_code_path r = Some p → p = qr_path id.
Proof.
  revert id r p. apply (run_invariant
    (λ w, ∀ id r p, record_of id w = Some r →
                    qr_code_path r = Some p → p = qr_path id)).
  - intros rq w Hw id r p Hr. destruct (record_of id w) as [r0|] eqn:E.
    + rewrite (handle_existing _ _ _ _ E) in Hr. injection Hr as <-.
      rewrite touch_qr_code_path. by apply Hw.
    + destruct (handle_created _ _ _ _ E Hr)
        as (f & sv & fn & cn & dv & pv & _ & _ & _ & _ & _ & _ & -> & _).
      rewrite registered_row_qr. destruct (qr_to_file_ok sv); congruence.
  - done.
Qed.

(** X13.  The paths [generateQRCode] returns for two different ids are
    different.  Hence, after any run of requests from the initial world,
    two rows of the table never point to the same QR image file. *)
Theorem qr_paths_do_not_collide :
  (∀ sv sv' id id' w w' p p',
     id ≠ id' →
     (generateQRCode sv id w).2 = Some p →
     (generateQRCode sv' id' w').2 = Some p' →
     p ≠ p') ∧
  (∀ rqs id id' r r' p p',
     id ≠ id' →
     record_of id (run rqs initial_world) = Some r →
     record_of id' (run rqs initial_world) = Some r' →
     qr_code_path r = Some p → qr_code_path r' = Some p' →
     p ≠ p').
Proof.
  split.
  - intros sv sv' id id' w w' p p' Hne Hp Hp' Heq.
    apply generateQRCode_path in Hp, Hp'. subst p p'.
    by apply qr_path_inj in Heq.
  - intros rqs id id' r r' p p' Hne Hr Hr' Hp Hp' Heq.
    apply (qr_code_path_own_run rqs id r p Hr) in Hp.
    apply (qr_code_path_own_run rqs id' r' p' Hr') in Hp'. subst p p'.
    by apply qr_path_inj in Heq.
Qed.

Lemma qr_paths_do_not_collide_witness :
  "uploads/qr-1.png" ≠ "uploads/qr-2.png".
Proof.
  destruct qr_paths_do_not_collide as [_ Hrows].
  apply (Hrows [Register Scenario.jane Scenario.all_up;
                Register Scenario.jane Scenario.all_up] 1 2
           (mkVisitor "Jane Doe" "5551234567" "Engineering" "John Smith"
              "2025-01-01 10:00:00" None 0 None None 1 0
              (Some "uploads/qr-1.png"))
           (mkVisitor "Jane Doe" "5551234567" "Engineering" "John Smith"
              "2025-01-01 10:00:00" None 0 None None 1 0
              (Some "uploads/qr-2.png")));
    [lia | vm_compute; reflexivity | vm_compute; reflexivity
    | reflexivity | reflexivity].
Defined.

End qr_files.
